(** * Package-set resolution of kairos-init, package [values]

    The repository carries two texts of [pkg/values/packagemaps.go]:
    the file itself, and a second text of the same package stored after
    the Dockerfile in [src/Dockerfile].  They are embedded side by side,
    as [Module Values] and [Module DockerfileValues].

    Go maps are finite maps ([gmap]); a [range] over a map visits its
    entries in an order the language leaves open, which is made explicit
    here as an [Order] argument of the resolver. *)

From Stdlib Require Import ZArith Ascii String.
From stdpp Require Import gmap strings list fin_maps.

Open Scope string_scope.
Open Scope list_scope.

(** ** Values declared outside the two texts *)

(** Modelled from the spec: the types [Distro], [Family] and
    [Architecture] and their constants are declared in a file of the
    package that is not part of the sources.  The spec calls them
    enumerations; the constructors are the constants the catalogs name,
    and [Other...] stands for every further member. *)
Inductive Distro : Type :=
  | Ubuntu | Debian | Fedora | Arch
  | OtherDistro (name : string).

Inductive Family : Type :=
  | DebianFamily | RedHatFamily | SUSEFamily | ArchFamily | AlpineFamily
  | OtherFamily (name : string).

Inductive Architecture : Type :=
  | ArchAMD64 | ArchARM64 | ArchCommon
  | OtherArch (name : string).

(** [type DistroFamilyInterface interface{}]: a map key of this type is a
    [Distro] or a [Family] together with its dynamic type, so a distro
    and a family never collide. *)
Inductive DistroFamilyInterface : Type :=
  | OfDistro (d : Distro)
  | OfFamily (f : Family).

Coercion OfDistro : Distro >-> DistroFamilyInterface.
Coercion OfFamily : Family >-> DistroFamilyInterface.

(** Modelled from the spec: the constant [Common], the unconditional
    sentinel among the version-constraint keys, is declared outside the
    sources. *)
Definition Common : string := "common".

(** Modelled from the spec: the struct [System] is declared outside the
    sources; these are the fields the resolver reads. *)
Record System : Type := mkSystem {
  sDistro : Distro;
  sFamily : Family;
  sArch : Architecture;
  sVersion : string
}.

#[global] Instance Distro_eq_dec : EqDecision Distro.
Proof. solve_decision. Defined.
#[global] Instance Family_eq_dec : EqDecision Family.
Proof. solve_decision. Defined.
#[global] Instance Architecture_eq_dec : EqDecision Architecture.
Proof. solve_decision. Defined.
#[global] Instance DistroFamilyInterface_eq_dec : EqDecision DistroFamilyInterface.
Proof. solve_decision. Defined.

#[global] Instance Distro_countable : Countable Distro.
Proof.
  refine (inj_countable'
    (fun d => match d with
              | Ubuntu => inl 0 | Debian => inl 1 | Fedora => inl 2
              | Arch => inl 3 | OtherDistro n => inr n end)
    (fun x => match x with
              | inl 0 => Ubuntu | inl 1 => Debian | inl 2 => Fedora
              | inl _ => Arch | inr n => OtherDistro n end) _).
  by intros [].
Defined.

#[global] Instance Family_countable : Countable Family.
Proof.
  refine (inj_countable'
    (fun d => match d with
              | DebianFamily => inl 0 | RedHatFamily => inl 1
              | SUSEFamily => inl 2 | ArchFamily => inl 3
              | AlpineFamily => inl 4 | OtherFamily n => inr n end)
    (fun x => match x with
              | inl 0 => DebianFamily | inl 1 => RedHatFamily
              | inl 2 => SUSEFamily | inl 3 => ArchFamily
              | inl _ => AlpineFamily | inr n => OtherFamily n end) _).
  by intros [].
Defined.

#[global] Instance Architecture_countable : Countable Architecture.
Proof.
  refine (inj_countable'
    (fun d => match d with
              | ArchAMD64 => inl 0 | ArchARM64 => inl 1
              | ArchCommon => inl 2 | OtherArch n => inr n end)
    (fun x => match x with
              | inl 0 => ArchAMD64 | inl 1 => ArchARM64
              | inl _ => ArchCommon | inr n => OtherArch n end) _).
  by intros [].
Defined.

#[global] Instance DistroFamilyInterface_countable : Countable DistroFamilyInterface.
Proof.
  refine (inj_countable'
    (fun k => match k with OfDistro d => inl d | OfFamily f => inr f end)
    (fun x => match x with inl d => OfDistro d | inr f => OfFamily f end) _).
  by intros [].
Defined.

(** ** Catalogs *)

(** [type VersionMap map[string][]string] and
    [type PackageMap map[DistroFamilyInterface]map[Architecture]VersionMap]. *)
Abbreviation VersionMap := (gmap string (list string)).
Abbreviation ArchMap := (gmap Architecture (gmap string (list string))).
Abbreviation PackageMap :=
  (gmap DistroFamilyInterface (gmap Architecture (gmap string (list string)))).

(** [pm[k][a]]: indexing a Go map with an absent key gives the zero value
    of the element type, which for a map type is the nil map; indexing or
    ranging over the nil map behaves like the empty map. *)
Definition index (pm : PackageMap) (k : DistroFamilyInterface)
    (a : Architecture) : VersionMap :=
  default ∅ (default ∅ (pm !! k) !! a).
Arguments index : simpl never.

(** The errors of the spec's taxonomy that the resolver can return. *)
Inductive error : Type :=
  | VersionParseError.

Inductive result (A : Type) : Type :=
  | Ok (a : A)
  | Err (e : error).
Arguments Ok {A} a.
Arguments Err {A} e.

(** The order in which the [i]-th [range] statement executed by a call
    visits the entries of the map it is given. *)
Definition Order : Type := nat → VersionMap → list (string * list string).

(** What Go guarantees about it: every entry is visited exactly once. *)
Definition admissible (order : Order) : Prop :=
  ∀ i m, order i m ≡ₚ map_to_list m.

(** Two orders every Go implementation may show. *)
Definition ascending : Order := fun _ m => map_to_list m.
Definition descending : Order := fun _ m => reverse (map_to_list m).

(** ** The semantic-version library

    [github.com/hashicorp/go-version] is imported, not part of the
    repository; the resolver is embedded over its interface. *)
Class Semver : Type := {
  SemverVersion : Type;
  SemverConstraints : Type;
  NewVersion : string → option SemverVersion;
  NewConstraint : string → option SemverConstraints;
  Check : SemverConstraints → SemverVersion → bool
}.

Section Resolver.
Context `{Semver}.

(** The body of the inner loop
    [for constraint, values := range packages { ... }]. *)
Definition visit (systemVersion : SemverVersion) (pkgs : list string)
    (entry : string * list string) : list string :=
  let '(constraint, values) := entry in
  if decide (constraint = Common) then pkgs ++ values
  else match NewConstraint constraint with
       | None => pkgs
       | Some semverConstraint =>
           if Check semverConstraint systemVersion
           then pkgs ++ values
           else pkgs
       end.

(** The two nested loops over [filteredPackages]; [i] counts the
    [range] statements over a [VersionMap] executed so far. *)
Fixpoint rangeAll (order : Order) (i : nat) (systemVersion : SemverVersion)
    (filteredPackages : list VersionMap) (pkgs : list string) : list string :=
  match filteredPackages with
  | [] => pkgs
  | packages :: rest =>
      rangeAll order (S i) systemVersion rest
        (foldl (visit systemVersion) pkgs (order i packages))
  end.

(** What one entry adds, read off the spec: the unconditional sentinel
    always matches, a malformed constraint is skipped, any other
    constraint is evaluated against the version. *)
Definition selected (systemVersion : SemverVersion)
    (entry : string * list string) : list string :=
  if decide (entry.1 = Common) then entry.2
  else match NewConstraint entry.1 with
       | None => []
       | Some c => if Check c systemVersion then entry.2 else []
       end.

Definition matches (systemVersion : SemverVersion) (constraint : string) : bool :=
  if decide (constraint = Common) then true
  else match NewConstraint constraint with
       | None => false
       | Some c => Check c systemVersion
       end.

Definition malformed (constraint : string) : bool :=
  if decide (constraint = Common) then false
  else match NewConstraint constraint with
       | None => true
       | Some _ => false
       end.

(** The entries a call visits, in the order it visits them. *)
Fixpoint visited (order : Order) (i : nat)
    (filteredPackages : list VersionMap) : list (string * list string) :=
  match filteredPackages with
  | [] => []
  | packages :: rest => order i packages ++ visited order (S i) rest
  end.

End Resolver.

(** ** [src/pkg/values/packagemaps.go] *)

Module Values.

Definition CommonPackages : list string := [
  "file"; "gawk"; "iptables"; "less"; "nano"; "sudo"; "tar"; "zstd";
  "rsync"; "systemd"; "dbus"; "lvm2"; "jq"; "dosfstools"; "e2fsprogs";
  "parted" ].

Definition ImmucorePackages : PackageMap := {[
  OfFamily DebianFamily := {[
    ArchCommon := {[
      Common := [
        "dracut"; "dracut-network"; "isc-dhcp-common"; "isc-dhcp-client";
        "systemd-sysv"; "cloud-guest-utils" ] ]} ]};
  OfDistro Ubuntu := {[
    ArchAMD64 := {[
      ">=22.04" := [
        "dracut-live" ] ]} ]};
  OfDistro Debian := {[
    ArchAMD64 := {[
      Common := [
        "dracut-live" ] ]} ]};
  OfFamily RedHatFamily := {[
    ArchAMD64 := {[
      Common := [
        "dracut"; "dracut-live"; "dracut-network"; "dracut-squash";
        "squashfs-tools"; "dhcp-client" ] ]} ]} ]}.

Definition KernelPackages : PackageMap := {[
  OfDistro Ubuntu := {[
    ArchAMD64 := {[
      ">=20.04, != 24.10" := [
        "linux-image-generic-hwe-{{.version}}" ];
      "24.10" := [
        "linux-image-generic-hwe-24.04" ] ]} ]};
  OfDistro Debian := {[
    ArchAMD64 := {[
      Common := [
        "linux-image-amd64"; "firmware-linux-free" ] ]};
    ArchARM64 := {[
      Common := [
        "linux-image-arm64"; "firmware-linux-free" ] ]} ]};
  OfFamily RedHatFamily := {[
    ArchCommon := {[
      Common := [
        "kernel"; "kernel-modules"; "kernel-modules-extra" ] ]} ]} ]}.

Definition BasePackages : PackageMap := {[
  OfFamily DebianFamily := {[
    ArchCommon := {[
      Common := [
        "ca-certificates"; "curl"; "binutils"; "conntrack";
        "console-setup"; "coreutils"; "cryptsetup"; "debianutils";
        "ethtool"; "fuse3"; "gdisk"; "gnupg"; "gnupg1-l10n"; "haveged";
        "iproute2"; "iptables"; "iputils-ping"; "krb5-locales"; "libatm1";
        "libglib2.0-data"; "libgpm2"; "libldap-common"; "libnss-systemd";
        "libpam-cap"; "libsasl2-modules"; "mdadm"; "nbd-client";
        "ncurses-term"; "neovim"; "nfs-common"; "nftables"; "open-iscsi";
        "openssh-server"; "open-vm-tools"; "os-prober"; "patch"; "pigz";
        "pkg-config"; "psmisc"; "publicsuffix"; "python3-pynvim";
        "shared-mime-info"; "snapd"; "systemd-timesyncd"; "xauth"; "xclip";
        "xdg-user-dirs"; "xxd"; "xz-utils"; "zerofree" ];
      "bookworm" := [
        "systemd-cryptsetup" ];
      "testing" := [
        "systemd-cryptsetup" ] ]} ]};
  OfFamily SUSEFamily := {[
    ArchCommon := {[
      Common := [
        "curl" ] ]} ]};
  OfFamily ArchFamily := {[
    ArchCommon := {[
      Common := [
        "curl" ] ]} ]};
  OfFamily AlpineFamily := {[
    ArchCommon := {[
      Common := [
        "curl" ] ]} ]};
  OfDistro Debian := {[
    ArchCommon := {[
      Common := [
        "systemd-resolved"; "nohang"; "polkitd" ] ]} ]};
  OfDistro Ubuntu := {[
    ArchCommon := {[
      Common := [
        "fdisk"; "conntrack"; "console-data"; "cloud-guest-utils";
        "gettext"; "systemd-container"; "ubuntu-advantage-tools";
        "tpm2-tools"; "dmsetup"; "networkd-dispatcher"; "packagekit-tools";
        "publicsuffix"; "xdg-user-dirs"; "zfsutils-linux" ];
      ">=24.04" := [
        "systemd-resolved" ] ]} ]};
  OfFamily RedHatFamily := {[
    ArchCommon := {[
      Common := [
        "gdisk"; "audit"; "cracklib-dicts"; "cloud-utils-growpart";
        "device-mapper"; "openssh-server"; "openssh-clients"; "polkit";
        "qemu-guest-agent"; "systemd-resolved"; "which"; "cryptsetup" ] ]} ]};
  OfDistro Fedora := {[
    ArchCommon := {[
      Common := [
        "haveged"; "systemd-networkd" ] ]} ]} ]}.

Definition GrubPackages : PackageMap := {[
  OfFamily DebianFamily := {[
    ArchAMD64 := {[
      Common := [
        "grub2"; "grub-efi-amd64-bin"; "grub-efi-amd64-signed";
        "grub-pc-bin"; "grub2-common"; "kbd"; "lldpd"; "shim-signed";
        "snmpd"; "squashfs-tools" ] ]};
    ArchARM64 := {[
      Common := [
        "grub-efi-arm64"; "grub-efi-arm64-bin"; "grub-efi-arm64-signed" ] ]} ]};
  OfFamily RedHatFamily := {[
    ArchCommon := {[
      Common := [
        "grub2" ] ]};
    ArchAMD64 := {[
      Common := [
        "grub2-efi-x64"; "grub2-efi-x64-modules"; "grub2-pc"; "shim-x64" ] ]};
    ArchARM64 := {[
      Common := [
        "grub2-efi-aa64"; "grub2-efi-aa64-modules"; "shim-aa64" ] ]} ]} ]}.

Definition SystemdPackages : PackageMap := {[
  OfDistro Ubuntu := {[
    ArchCommon := {[
      Common := [
        "systemd" ];
      ">=24.04" := [
        "iucode-tool"; "kmod"; "linux-base"; "systemd-boot" ] ]} ]} ]}.

(** The package-level variables the resolver reads.  They are [var]s,
    so the resolver is embedded over their current values; [initial]
    is their state once the package is initialised.  [RpiPackages] is
    read by no function of the file. *)
Record Globals : Type := {
  gCommonPackages : list string;
  gImmucorePackages : PackageMap;
  gKernelPackages : PackageMap;
  gBasePackages : PackageMap;
  gGrubPackages : PackageMap;
  gSystemdPackages : PackageMap
}.

Definition initial : Globals := {|
  gCommonPackages := CommonPackages;
  gImmucorePackages := ImmucorePackages;
  gKernelPackages := KernelPackages;
  gBasePackages := BasePackages;
  gGrubPackages := GrubPackages;
  gSystemdPackages := SystemdPackages
|}.

Section GetPackages.
Context `{Semver}.

(** The slice [filteredPackages] once the [if] on
    [config.DefaultConfig.TrustedBoot] has run. *)
Definition filteredPackages (g : Globals) (TrustedBoot : bool)
    (s : System) : list VersionMap :=
  let filteredPackages := [
    index (gBasePackages g) (sDistro s) ArchCommon;
    index (gBasePackages g) (sFamily s) ArchCommon;
    index (gBasePackages g) (sDistro s) (sArch s);
    index (gBasePackages g) (sFamily s) (sArch s);
    index (gKernelPackages g) (sDistro s) ArchCommon;
    index (gKernelPackages g) (sFamily s) ArchCommon;
    index (gKernelPackages g) (sDistro s) (sArch s);
    index (gKernelPackages g) (sFamily s) (sArch s) ] in
  if TrustedBoot then
    filteredPackages ++ [
      index (gSystemdPackages g) (sDistro s) ArchCommon;
      index (gSystemdPackages g) (sFamily s) ArchCommon;
      index (gSystemdPackages g) (sDistro s) (sArch s);
      index (gSystemdPackages g) (sFamily s) (sArch s) ]
  else
    filteredPackages ++ [
      index (gGrubPackages g) (sDistro s) ArchCommon;
      index (gGrubPackages g) (sFamily s) ArchCommon;
      index (gGrubPackages g) (sDistro s) (sArch s);
      index (gGrubPackages g) (sFamily s) (sArch s);
      index (gImmucorePackages g) (sDistro s) ArchCommon;
      index (gImmucorePackages g) (sFamily s) ArchCommon;
      index (gImmucorePackages g) (sDistro s) (sArch s);
      index (gImmucorePackages g) (sFamily s) (sArch s) ].

Definition GetPackages (g : Globals) (TrustedBoot : bool) (order : Order)
    (s : System) : result (list string) :=
  let mergedPkgs := gCommonPackages g in
  match NewVersion (sVersion s) with
  | None => Err VersionParseError
  | Some systemVersion =>
      Ok (rangeAll order 0 systemVersion
            (filteredPackages g TrustedBoot s) mergedPkgs)
  end.

End GetPackages.

End Values.

(** ** The text of package [values] in [src/Dockerfile] *)

Module DockerfileValues.

Definition CommonPackages : list string := [
  "file"; "gawk"; "iptables"; "less"; "nano"; "sudo"; "tar"; "zstd";
  "rsync"; "lvm2"; "jq"; "dosfstools"; "e2fsprogs"; "parted" ].

Definition ImmucorePackages : PackageMap := {[
  OfFamily DebianFamily := {[
    ArchCommon := {[
      Common := [
        "dracut"; "dracut-network"; "isc-dhcp-common"; "isc-dhcp-client";
        "cloud-guest-utils" ] ]} ]};
  OfDistro Ubuntu := {[
    ArchCommon := {[
      ">=22.04" := [
        "dracut-live" ] ]} ]};
  OfDistro Debian := {[
    ArchCommon := {[
      Common := [
        "dracut-live" ] ]} ]};
  OfFamily RedHatFamily := {[
    ArchCommon := {[
      Common := [
        "dracut"; "dracut-live"; "dracut-network"; "dracut-squash";
        "squashfs-tools"; "dhcp-client" ] ]} ]};
  OfFamily SUSEFamily := {[
    ArchCommon := {[
      Common := [
        "dracut"; "squashfs"; "dhcp-client" ] ]} ]} ]}.

Definition KernelPackages : PackageMap := {[
  OfDistro Ubuntu := {[
    ArchCommon := {[
      ">=20.04, != 24.10" := [
        "linux-image-generic-hwe-{{.version}}" ];
      "24.10" := [
        "linux-image-generic-hwe-24.04" ] ]} ]};
  OfDistro Debian := {[
    ArchAMD64 := {[
      Common := [
        "linux-image-amd64"; "firmware-linux-free" ] ]};
    ArchARM64 := {[
      Common := [
        "linux-image-arm64"; "firmware-linux-free" ] ]} ]};
  OfFamily RedHatFamily := {[
    ArchCommon := {[
      Common := [
        "kernel"; "kernel-modules"; "kernel-modules-extra" ] ]} ]};
  OfFamily AlpineFamily := {[
    ArchCommon := {[
      Common := [
        "linux-lts" ] ]} ]};
  OfFamily SUSEFamily := {[
    ArchCommon := {[
      Common := [
        "kernel-default" ] ]} ]} ]}.

Definition KernelPackagesTrustedBoot : PackageMap := {[
  OfDistro Debian := {[
    ArchAMD64 := {[
      Common := [
        "linux-image-amd64"; "firmware-linux-free" ] ]};
    ArchARM64 := {[
      Common := [
        "linux-image-arm64"; "firmware-linux-free" ] ]} ]};
  OfFamily RedHatFamily := {[
    ArchCommon := {[
      Common := [
        "kernel"; "kernel-modules"; "kernel-modules-extra" ] ]} ]};
  OfFamily AlpineFamily := {[
    ArchCommon := {[
      Common := [
        "linux-lts" ] ]} ]};
  OfFamily SUSEFamily := {[
    ArchCommon := {[
      Common := [
        "kernel-default" ] ]} ]} ]}.

Definition BasePackages : PackageMap := {[
  OfFamily DebianFamily := {[
    ArchCommon := {[
      Common := [
        "ca-certificates"; "curl"; "binutils"; "conntrack";
        "console-setup"; "coreutils"; "cryptsetup"; "debianutils";
        "ethtool"; "fuse3"; "gdisk"; "gnupg"; "gnupg1-l10n"; "haveged";
        "iproute2"; "iptables"; "iputils-ping"; "krb5-locales"; "libatm1";
        "libglib2.0-data"; "libgpm2"; "libldap-common"; "libnss-systemd";
        "libpam-cap"; "libsasl2-modules"; "mdadm"; "nbd-client";
        "ncurses-term"; "neovim"; "nfs-common"; "nftables"; "open-iscsi";
        "openssh-server"; "open-vm-tools"; "os-prober"; "patch"; "pigz";
        "pkg-config"; "psmisc"; "publicsuffix"; "python3-pynvim";
        "shared-mime-info"; "snapd"; "systemd"; "systemd-timesyncd";
        "systemd-sysv"; "xauth"; "xclip"; "xdg-user-dirs"; "xxd";
        "xz-utils"; "zerofree" ] ]} ]};
  OfFamily SUSEFamily := {[
    ArchCommon := {[
      Common := [
        "curl"; "bash-completion"; "conntrack-tools"; "cryptsetup";
        "coreutils"; "device-mapper"; "fail2ban"; "findutils"; "growpart";
        "gptfdisk"; "haveged"; "htop"; "iproute2"; "iputils";
        "issue-generator"; "logrotate"; "lsscsi"; "mdadm";
        "multipath-tools"; "open-iscsi"; "openssh"; "open-vm-tools";
        "pigz"; "policycoreutils"; "polkit"; "procps"; "qemu-guest-agent";
        "strace"; "systemd"; "systemd-network"; "timezone"; "tmux"; "vim";
        "which"; "tpm2*" ] ]} ]};
  OfFamily AlpineFamily := {[
    ArchCommon := {[
      Common := [
        "curl"; "bash"; "bash-completion"; "blkid"; "cloud-utils-growpart";
        "bonding"; "bridge"; "busybox-openrc"; "ca-certificates";
        "connman"; "conntrack-tools"; "coreutils"; "cryptsetup";
        "device-mapper-udev"; "dbus"; "dmidecode"; "dosfstools";
        "e2fsprogs"; "e2fsprogs-extra"; "efibootmgr"; "eudev";
        "eudev-hwids"; "fail2ban"; "findutils"; "findmnt"; "gcompat";
        "gettext"; "haveged"; "htop"; "hvtools"; "iproute2"; "irqbalance";
        "iscsi-scst"; "kbd-bkeymaps"; "libc6-compat"; "libusb";
        "lm-sensors"; "logrotate"; "lsscsi"; "lvm2-extra"; "mdadm";
        "mdadm-misc"; "mdadm-udev"; "multipath-tools"; "ncurses";
        "ncurses-terminfo"; "nfs-utils"; "open-iscsi"; "openrc";
        "openssh-client"; "openssh-server"; "open-vm-tools";
        "open-vm-tools-deploypkg"; "open-vm-tools-guestinfo";
        "open-vm-tools-static"; "open-vm-tools-vmbackup"; "procps";
        "qemu-guest-agent"; "rbd-nbd"; "sgdisk"; "smartmontools";
        "squashfs-tools"; "strace"; "tzdata"; "util-linux"; "vim"; "which";
        "wireguard-tools"; "wpa_supplicant"; "xfsprogs"; "xfsprogs-extra";
        "xz" ] ]} ]};
  OfFamily RedHatFamily := {[
    ArchCommon := {[
      Common := [
        "gdisk"; "audit"; "cracklib-dicts"; "cloud-utils-growpart";
        "device-mapper"; "openssh-server"; "openssh-clients"; "polkit";
        "qemu-guest-agent"; "systemd"; "systemd-resolved"; "which";
        "cryptsetup" ] ]} ]};
  OfDistro Debian := {[
    ArchCommon := {[
      Common := [
        "systemd-resolved"; "nohang"; "polkitd" ];
      ">=13" := [
        "systemd-cryptsetup" ] ]} ]};
  OfDistro Ubuntu := {[
    ArchCommon := {[
      Common := [
        "fdisk"; "conntrack"; "console-data"; "cloud-guest-utils";
        "gettext"; "systemd-container"; "ubuntu-advantage-tools";
        "tpm2-tools"; "dmsetup"; "networkd-dispatcher"; "packagekit-tools";
        "publicsuffix"; "xdg-user-dirs"; "zfsutils-linux" ];
      ">=24.04" := [
        "systemd-resolved" ] ]} ]};
  OfDistro Fedora := {[
    ArchCommon := {[
      Common := [
        "haveged"; "systemd-networkd" ] ]} ]} ]}.

Definition GrubPackages : PackageMap := {[
  OfFamily DebianFamily := {[
    ArchCommon := {[
      Common := [
        "kbd"; "lldpd"; "shim-signed"; "snmpd"; "squashfs-tools" ] ]};
    ArchAMD64 := {[
      Common := [
        "grub2"; "grub-efi-amd64-bin"; "grub-efi-amd64-signed";
        "grub-pc-bin"; "grub2-common" ] ]};
    ArchARM64 := {[
      Common := [
        "grub-efi-arm64"; "grub-efi-arm64-bin"; "grub-efi-arm64-signed" ] ]} ]};
  OfFamily RedHatFamily := {[
    ArchCommon := {[
      Common := [
        "grub2" ] ]};
    ArchAMD64 := {[
      Common := [
        "grub2-efi-x64"; "grub2-efi-x64-modules"; "grub2-pc"; "shim-x64" ] ]};
    ArchARM64 := {[
      Common := [
        "grub2-efi-aa64"; "grub2-efi-aa64-modules"; "shim-aa64" ] ]} ]};
  OfFamily AlpineFamily := {[
    ArchAMD64 := {[
      Common := [
        "grub-bios" ] ]};
    ArchCommon := {[
      Common := [
        "grub"; "grub-efi" ] ]} ]};
  OfFamily SUSEFamily := {[
    ArchCommon := {[
      Common := [
        "nethogs"; "patch"; "shim"; "iw" ] ]};
    ArchAMD64 := {[
      Common := [
        "grub2-i386-pc"; "grub2-x86_64-efi"; "kernel-firmware-all" ] ]};
    ArchARM64 := {[
      Common := [
        "bcm43xx-firmware"; "grub2-arm64-efi"; "kernel-firmware-ath10k";
        "kernel-firmware-ath11k"; "kernel-firmware-atheros";
        "kernel-firmware-bluetooth"; "kernel-firmware-brcm";
        "kernel-firmware-iwlwifi"; "kernel-firmware-network";
        "kernel-firmware-realtek"; "kernel-firmware-serial";
        "kernel-firmware-usb-network" ] ]} ]};
  OfDistro Ubuntu := {[
    ArchCommon := {[
      Common := [
        "zfsutils-linux" ] ]} ]} ]}.

Definition SystemdPackages : PackageMap := {[
  OfDistro Ubuntu := {[
    ArchCommon := {[
      Common := [
        "systemd" ];
      ">=24.04" := [
        "iucode-tool"; "kmod"; "linux-base"; "systemd-boot" ] ]} ]} ]}.

(** The package-level variables, as in [Values.Globals], with the
    separate kernel catalog of trusted boot. *)
Record Globals : Type := {
  gCommonPackages : list string;
  gImmucorePackages : PackageMap;
  gKernelPackages : PackageMap;
  gKernelPackagesTrustedBoot : PackageMap;
  gBasePackages : PackageMap;
  gGrubPackages : PackageMap;
  gSystemdPackages : PackageMap
}.

Definition initial : Globals := {|
  gCommonPackages := CommonPackages;
  gImmucorePackages := ImmucorePackages;
  gKernelPackages := KernelPackages;
  gKernelPackagesTrustedBoot := KernelPackagesTrustedBoot;
  gBasePackages := BasePackages;
  gGrubPackages := GrubPackages;
  gSystemdPackages := SystemdPackages
|}.

Section GetPackages.
Context `{Semver}.

Definition filteredPackages (g : Globals) (TrustedBoot : bool)
    (s : System) : list VersionMap :=
  let filteredPackages := [
    index (gBasePackages g) (sDistro s) ArchCommon;
    index (gBasePackages g) (sFamily s) ArchCommon;
    index (gBasePackages g) (sDistro s) (sArch s);
    index (gBasePackages g) (sFamily s) (sArch s) ] in
  if TrustedBoot then
    filteredPackages ++ [
      index (gKernelPackagesTrustedBoot g) (sDistro s) ArchCommon;
      index (gKernelPackagesTrustedBoot g) (sFamily s) ArchCommon;
      index (gKernelPackagesTrustedBoot g) (sDistro s) (sArch s);
      index (gKernelPackagesTrustedBoot g) (sFamily s) (sArch s);
      index (gSystemdPackages g) (sDistro s) ArchCommon;
      index (gSystemdPackages g) (sFamily s) ArchCommon;
      index (gSystemdPackages g) (sDistro s) (sArch s);
      index (gSystemdPackages g) (sFamily s) (sArch s) ]
  else
    filteredPackages ++ [
      index (gKernelPackages g) (sDistro s) ArchCommon;
      index (gKernelPackages g) (sFamily s) ArchCommon;
      index (gKernelPackages g) (sDistro s) (sArch s);
      index (gKernelPackages g) (sFamily s) (sArch s);
      index (gGrubPackages g) (sDistro s) ArchCommon;
      index (gGrubPackages g) (sFamily s) ArchCommon;
      index (gGrubPackages g) (sDistro s) (sArch s);
      index (gGrubPackages g) (sFamily s) (sArch s);
      index (gImmucorePackages g) (sDistro s) ArchCommon;
      index (gImmucorePackages g) (sFamily s) ArchCommon;
      index (gImmucorePackages g) (sDistro s) (sArch s);
      index (gImmucorePackages g) (sFamily s) (sArch s) ].

(** [FilterPackagesOnConstraint]: a version that does not parse
    returns the nil slice. *)
Definition FilterPackagesOnConstraint (order : Order) (s : System)
    (pkgsToFilter : list VersionMap) : list string :=
  let pkgs := [] in
  match NewVersion (sVersion s) with
  | None => pkgs
  | Some systemVersion => rangeAll order 0 systemVersion pkgsToFilter pkgs
  end.

Definition GetPackages (g : Globals) (TrustedBoot : bool) (order : Order)
    (s : System) : result (list string) :=
  let mergedPkgs := gCommonPackages g in
  Ok (mergedPkgs ++
      FilterPackagesOnConstraint order s (filteredPackages g TrustedBoot s)).

End GetPackages.

End DockerfileValues.

(** ** A model of the semantic-version library *)

Module GoVersion.

(** The library [github.com/hashicorp/go-version] is not among the
    sources.  The model below covers versions made of decimal segments
    and the operators [=], [!=], [>], [<], [>=] and [<=]; pre-release
    and build-metadata suffixes and the operator [~>] fall outside it,
    and such strings are reported as failing to parse. *)

(** The value of one decimal digit. *)
Definition digit (c : ascii) : option Z :=
  let n := Z.of_N (N_of_ascii c) in
  if (48 <=? n)%Z && (n <=? 57)%Z then Some (n - 48)%Z else None.

Fixpoint number (acc : Z) (cs : list ascii) : option Z :=
  match cs with
  | [] => Some acc
  | c :: rest =>
      match digit c with
      | Some d => number (10 * acc + d)%Z rest
      | None => None
      end
  end.

(** [strconv.ParseInt(str, 10, 64)] on a segment: digits only, and the
    value has to fit a signed 64-bit integer. *)
Definition ParseInt (cs : list ascii) : option Z :=
  match cs with
  | [] => None
  | _ =>
      match number 0 cs with
      | Some n => if (n <? 2 ^ 63)%Z then Some n else None
      | None => None
      end
  end.

(** [strings.Split] on a one-character separator. *)
Fixpoint split (sep : ascii) (cs : list ascii) : list (list ascii) :=
  match cs with
  | [] => [[]]
  | c :: rest =>
      if decide (c = sep) then [] :: split sep rest
      else match split sep rest with
           | w :: ws => (c :: w) :: ws
           | [] => [[c]]
           end
  end.

Fixpoint parseSegments (strs : list (list ascii)) : option (list Z) :=
  match strs with
  | [] => Some []
  | str :: rest =>
      match ParseInt str, parseSegments rest with
      | Some val, Some segments => Some (val :: segments)
      | _, _ => None
      end
  end.

(** A version is the list of its segments, at least three of them. *)
Definition pad (segments : list Z) : list Z :=
  segments ++ replicate (3 - length segments) 0%Z.

Definition versionOfChars (cs : list ascii) : option (list Z) :=
  let body := match cs with
              | "v"%char :: rest => rest
              | _ => cs
              end in
  pad <$> parseSegments (split "."%char body).

(** Modelled from the spec: [semver.NewVersion] belongs to the imported
    library, absent from the sources.  The version is parsed as a
    semantic version: an optional [v] and dotted decimal segments,
    completed with zeros up to three. *)
Definition NewVersion (v : string) : option (list Z) :=
  versionOfChars (list_ascii_of_string v).

Definition allZero (segments : list Z) : bool :=
  forallb (Z.eqb 0) segments.

(** [Version.Compare]: segment by segment, a missing segment counting
    as zero. *)
Fixpoint Compare (self other : list Z) : comparison :=
  match self, other with
  | [], _ => if allZero other then Eq else Lt
  | _, [] => if allZero self then Eq else Gt
  | lhs :: self', rhs :: other' =>
      if (lhs =? rhs)%Z then Compare self' other'
      else if (lhs <? rhs)%Z then Lt else Gt
  end.

Inductive Operator : Type :=
  | equal | notEqual | greaterThan | lessThan
  | greaterThanEqual | lessThanEqual.

Definition isSpace (c : ascii) : bool :=
  bool_decide (c ∈ [" "; "009"; "010"; "012"; "013"]%char).

Fixpoint trimLeft (cs : list ascii) : list ascii :=
  match cs with
  | c :: rest => if isSpace c then trimLeft rest else cs
  | [] => []
  end.

Definition trim (cs : list ascii) : list ascii :=
  reverse (trimLeft (reverse (trimLeft cs))).

Definition splitOperator (cs : list ascii) : Operator * list ascii :=
  match cs with
  | ">" :: "=" :: rest => (greaterThanEqual, rest)
  | "<" :: "=" :: rest => (lessThanEqual, rest)
  | "!" :: "=" :: rest => (notEqual, rest)
  | "=" :: rest => (equal, rest)
  | ">" :: rest => (greaterThan, rest)
  | "<" :: rest => (lessThan, rest)
  | _ => (equal, cs)
  end%char.

(** One clause: blanks, the operator, blanks, the version, blanks. *)
Definition parseSingle (cs : list ascii) : option (Operator * list Z) :=
  let '(op, rest) := splitOperator (trim cs) in
  match versionOfChars (trimLeft rest) with
  | Some check => Some (op, check)
  | None => None
  end.

Fixpoint parseAll (vs : list (list ascii)) : option (list (Operator * list Z)) :=
  match vs with
  | [] => Some []
  | single :: rest =>
      match parseSingle single, parseAll rest with
      | Some c, Some cs => Some (c :: cs)
      | _, _ => None
      end
  end.

(** Modelled from the spec: [semver.NewConstraint] belongs to the imported
    library, absent from the sources.  The constraint is parsed as a
    comma-conjoined range; one malformed clause makes the whole
    constraint fail to parse. *)
Definition NewConstraint (v : string) : option (list (Operator * list Z)) :=
  parseAll (split ","%char (list_ascii_of_string v)).

Definition checkSingle (v : list Z) (c : Operator * list Z) : bool :=
  match c.1, Compare v c.2 with
  | equal, Eq => true
  | notEqual, (Lt | Gt) => true
  | greaterThan, Gt => true
  | lessThan, Lt => true
  | greaterThanEqual, (Gt | Eq) => true
  | lessThanEqual, (Lt | Eq) => true
  | _, _ => false
  end.

(** Modelled from the spec: [Constraints.Check] belongs to the imported
    library, absent from the sources.  All the comma-separated clauses
    must hold. *)
Definition Check (cs : list (Operator * list Z)) (v : list Z) : bool :=
  forallb (checkSingle v) cs.

Definition semver : Semver :=
  Build_Semver (list Z) (list (Operator * list Z))
    NewVersion NewConstraint Check.

End GoVersion.

(** ** Template expansion *)

(** [text/template] is Go's standard library; [PackageListToTemplate] is
    embedded over the two calls it makes. *)
Class TemplateEngine : Type := {
  Template : Type;
  TemplateError : Type;
  Parse : string → TemplateError + Template;
  Execute : Template → gmap string string → TemplateError + string
}.

Section PackageListToTemplate.
Context `{TemplateEngine}.

(** The loop of [PackageListToTemplate], the same in both texts.  On
    the first error the function returns [[]string{}, err]; the sum
    keeps the error. *)
Fixpoint expandFrom (packages : list string) (params : gmap string string)
    (finalPackages : list string) : TemplateError + list string :=
  match packages with
  | [] => inr finalPackages
  | pkg :: rest =>
      match Parse pkg with
      | inl err => inl err
      | inr tmpl =>
          match Execute tmpl params with
          | inl err => inl err
          | inr result => expandFrom rest params (finalPackages ++ [result])
          end
      end
  end.

Definition PackageListToTemplate (packages : list string)
    (params : gmap string string) : TemplateError + list string :=
  expandFrom packages params [].

End PackageListToTemplate.

Module GoTemplate.

(** The part of [text/template] that package names use: literal text
    and actions of the form [{{.key}}], blanks allowed around the
    field, evaluated against a [map[string]string].  A template with
    any other action is reported as [Unmodelled]. *)
Inductive Node : Type :=
  | TextNode (text : list ascii)
  | FieldNode (ident : string).

Inductive Error : Type :=
  | TemplateSyntaxError
  | TemplateExecutionError
  | Unmodelled.

Definition isSpace (c : ascii) : bool :=
  bool_decide (c ∈ [" "; "009"; "010"; "013"]%char).

Definition isLetter (c : ascii) : bool :=
  let n := N_of_ascii c in
  ((65 <=? n) && (n <=? 90) || (97 <=? n) && (n <=? 122) || (n =? 95))%N.

Definition isAlphaNumeric (c : ascii) : bool :=
  let n := N_of_ascii c in
  isLetter c || ((48 <=? n) && (n <=? 57))%N.

Fixpoint trimLeft (cs : list ascii) : list ascii :=
  match cs with
  | c :: rest => if isSpace c then trimLeft rest else cs
  | [] => []
  end.

Definition trim (cs : list ascii) : list ascii :=
  reverse (trimLeft (reverse (trimLeft cs))).

(** The field an action names, when the action is a single field. *)
Definition field (action : list ascii) : option string :=
  match trim action with
  | "."%char :: c :: rest =>
      if isLetter c && forallb isAlphaNumeric rest
      then Some (string_of_list_ascii (c :: rest))
      else None
  | _ => None
  end.

Definition text (cs : list ascii) : list Node :=
  match cs with
  | [] => []
  | _ => [TextNode cs]
  end.

(** The lexer, one pass over the text: [acc] holds, in reverse, the
    literal text or the action read so far.  An action left open up to
    the end of the text is the syntax error [unclosed action]. *)
Fixpoint scan (cs : list ascii) (inAction : bool) (acc : list ascii)
    : Error + list Node :=
  match cs with
  | [] => if inAction then inl TemplateSyntaxError else inr (text (reverse acc))
  | c1 :: rest =>
      match rest with
      | [] =>
          if inAction then inl TemplateSyntaxError
          else inr (text (reverse (c1 :: acc)))
      | c2 :: rest' =>
          if inAction then
            if decide (c1 = "}"%char ∧ c2 = "}"%char) then
              match field (reverse acc) with
              | Some ident =>
                  match scan rest' false [] with
                  | inr nodes => inr (FieldNode ident :: nodes)
                  | inl err => inl err
                  end
              | None => inl Unmodelled
              end
            else scan rest true (c1 :: acc)
          else
            if decide (c1 = "{"%char ∧ c2 = "{"%char) then
              match scan rest' true [] with
              | inr nodes => inr (text (reverse acc) ++ nodes)
              | inl err => inl err
              end
            else scan rest false (c1 :: acc)
      end
  end.

Definition Parse (pkg : string) : Error + list Node :=
  scan (list_ascii_of_string pkg) false [].

(** A key the map lacks is no error under the default [missingkey]
    option, which the code never changes: the action prints
    [<no value>]. *)
Definition value (params : gmap string string) (n : Node) : string :=
  match n with
  | TextNode cs => string_of_list_ascii cs
  | FieldNode ident => default "<no value>" (params !! ident)
  end.

Definition Execute (tmpl : list Node) (params : gmap string string)
    : Error + string :=
  inr (foldr String.append "" (value params <$> tmpl)).

Definition engine : TemplateEngine :=
  Build_TemplateEngine (list Node) Error Parse Execute.

End GoTemplate.

(** ** Notions used in the statements *)

(** Two results of the resolver that agree up to the order of the
    packages. *)
Definition sameUpToOrder (r1 r2 : result (list string)) : Prop :=
  match r1, r2 with
  | Ok l1, Ok l2 => l1 ≡ₚ l2
  | Err e1, Err e2 => e1 = e2
  | _, _ => False
  end.

(** What the [range] statements numbered [from] to [from + count - 1] of
    a call append.  In both texts statements 0 to 3 read the Base
    catalog, 4 to 7 a kernel catalog, and the later ones the boot
    catalogs. *)
Definition contribution `{Semver} (order : Order) (systemVersion : SemverVersion)
    (filteredPackages : list VersionMap) (from count : nat) : list string :=
  rangeAll order from systemVersion (take count (drop from filteredPackages)) [].

(** Every entry of a catalog, under any selector and architecture, and
    every package name the catalog lists. *)
Definition entriesOf (pm : PackageMap) : list (string * list string) :=
  map_to_list pm ≫= λ byArch,
    map_to_list byArch.2 ≫= λ byConstraint,
      map_to_list byConstraint.2.

Definition packagesOf (pm : PackageMap) : list string :=
  entriesOf pm ≫= snd.

(** A catalog is drawn from: each of its entries found by one of the
    four lookups for [s], and whose key matches, has its packages in
    [out], in declaration order and adjacent. *)
Definition drawnFrom `{Semver} (out : list string) (systemVersion : SemverVersion)
    (pm : PackageMap) (s : System) : Prop :=
  ∀ (k : DistroFamilyInterface) (a : Architecture) constraint values,
    k ∈ [OfDistro (sDistro s); OfFamily (sFamily s)] →
    a ∈ [ArchCommon; sArch s] →
    index pm k a !! constraint = Some values →
    matches systemVersion constraint = true →
    ∃ before after, out = before ++ values ++ after.

(** Text without an opening brace, text without a closing brace, and
    the names a field may have in the modelled part of the template
    language. *)
Definition plain (text : string) : Prop :=
  "{"%char ∉ list_ascii_of_string text.

Definition braceless (text : string) : Prop :=
  "}"%char ∉ list_ascii_of_string text.

Definition identifier (key : string) : Prop :=
  match list_ascii_of_string key with
  | c :: rest =>
      GoTemplate.isLetter c && forallb GoTemplate.isAlphaNumeric rest = true
  | [] => False
  end.

(** A package expands to [r]: it parses and its template executes. *)
Definition expandsTo `{TemplateEngine} (params : gmap string string)
    (pkg r : string) : Prop :=
  ∃ tmpl, Parse pkg = inr tmpl ∧ Execute tmpl params = inr r.

(** A package stops the expansion with [err]. *)
Definition stopsWith `{TemplateEngine} (params : gmap string string)
    (pkg : string) (err : TemplateError) : Prop :=
  Parse pkg = inl err ∨
  ∃ tmpl, Parse pkg = inr tmpl ∧ Execute tmpl params = inl err.

(** The catalogs a call reads, by boot mode, in each text: what the
    lookups of [filteredPackages] index. *)
Definition Values_catalogs (g : Values.Globals) (TrustedBoot : bool)
    : list PackageMap :=
  if TrustedBoot
  then [Values.gBasePackages g; Values.gKernelPackages g;
        Values.gSystemdPackages g]
  else [Values.gBasePackages g; Values.gKernelPackages g;
        Values.gGrubPackages g; Values.gImmucorePackages g].

Definition DockerfileValues_catalogs (g : DockerfileValues.Globals)
    (TrustedBoot : bool) : list PackageMap :=
  if TrustedBoot
  then [DockerfileValues.gBasePackages g;
        DockerfileValues.gKernelPackagesTrustedBoot g;
        DockerfileValues.gSystemdPackages g]
  else [DockerfileValues.gBasePackages g; DockerfileValues.gKernelPackages g;
        DockerfileValues.gGrubPackages g;
        DockerfileValues.gImmucorePackages g].

(** The catalog [pm] lists [p] for the system: under its distro or its
    family, under [ArchCommon] or its architecture, and under a key
    that matches its version. *)
Definition listedFor `{Semver} (systemVersion : SemverVersion)
    (pm : PackageMap) (s : System) (p : string) : Prop :=
  ∃ (k : DistroFamilyInterface) (a : Architecture) constraint values,
    k ∈ [OfDistro (sDistro s); OfFamily (sFamily s)] ∧
    a ∈ [ArchCommon; sArch s] ∧
    index pm k a !! constraint = Some values ∧
    matches systemVersion constraint = true ∧
    p ∈ values.

(** The rows of a catalog: selector, architecture, key and packages. *)
Definition rowsOf (pm : PackageMap)
    : list (DistroFamilyInterface * Architecture * string * list string) :=
  map_to_list pm ≫= λ byArch,
    map_to_list byArch.2 ≫= λ byConstraint,
      (λ entry, (byArch.1, byConstraint.1, entry.1, entry.2)) <$>
        map_to_list byConstraint.2.

(** The package parses as a template of the modelled part of the
    template language. *)
Definition parses (pkg : string) : bool :=
  match GoTemplate.Parse pkg with
  | inr _ => true
  | inl _ => false
  end.

(** The four lookups the code makes in one catalog, in the order it
    writes them. *)
Definition lookups (pm : PackageMap) (s : System) : list VersionMap :=
  [index pm (sDistro s) ArchCommon; index pm (sFamily s) ArchCommon;
   index pm (sDistro s) (sArch s); index pm (sFamily s) (sArch s)].

(** The entries the [range] statements of a call visit, one list for
    each map ranged over, in the order of the maps. *)
Fixpoint visits (order : Order) (i : nat) (maps : list VersionMap)
    : list (list (string * list string)) :=
  match maps with
  | [] => []
  | packages :: rest => order i packages :: visits order (S i) rest
  end.

(** A walk of [maps]: one list for each map, in the order of the maps,
    holding the entries of that map in some order. *)
Definition walkOf (maps : list VersionMap)
    (walk : list (list (string * list string))) : Prop :=
  Forall2 (λ m es, es ≡ₚ map_to_list m) maps walk.

(** What a walk appends: map after map, entry after entry, the packages
    of each entry whose key matches, as the catalog lists them. *)
Definition appended `{Semver} (systemVersion : SemverVersion)
    (walk : list (list (string * list string))) : list string :=
  walk ≫= λ es, es ≫= λ e, if matches systemVersion e.1 then e.2 else [].

(** * Properties *)

Section ResolverFacts.
Context `{Semver}.
Implicit Types (v : SemverVersion) (order : Order)
  (es : list (string * list string)) (maps : list VersionMap).

Lemma visit_selected v pkgs e : visit v pkgs e = pkgs ++ selected v e.
Proof.
  destruct e as [c values]. unfold visit, selected. simpl.
  destruct (decide (c = Common)); [done|].
  destruct (NewConstraint c) as [k|]; [|by rewrite app_nil_r].
  destruct (Check k v); [done|by rewrite app_nil_r].
Qed.

Lemma foldl_visit v es pkgs :
  foldl (visit v) pkgs es = pkgs ++ (es ≫= selected v).
Proof.
  revert pkgs. induction es as [|e es IH]; intros pkgs; simpl.
  - by rewrite app_nil_r.
  - rewrite IH, visit_selected. by rewrite <- app_assoc.
Qed.

Lemma rangeAll_visited order i v maps pkgs :
  rangeAll order i v maps pkgs = foldl (visit v) pkgs (visited order i maps).
Proof.
  revert i pkgs. induction maps as [|m maps IH]; intros i pkgs; simpl; [done|].
  by rewrite IH, foldl_app.
Qed.

Lemma rangeAll_selected order i v maps pkgs :
  rangeAll order i v maps pkgs = pkgs ++ (visited order i maps ≫= selected v).
Proof. by rewrite rangeAll_visited, foldl_visit. Qed.

Lemma visited_app order i maps1 maps2 :
  visited order i (maps1 ++ maps2) =
  visited order i maps1 ++ visited order (i + length maps1) maps2.
Proof.
  revert i. induction maps1 as [|m maps1 IH]; intros i; simpl.
  - by rewrite Nat.add_0_r.
  - rewrite IH, <- app_assoc. do 3 f_equal. lia.
Qed.

Lemma visited_Permutation order1 order2 i j maps :
  admissible order1 → admissible order2 →
  visited order1 i maps ≡ₚ visited order2 j maps.
Proof.
  intros H1 H2. revert i j.
  induction maps as [|m maps IH]; intros i j; simpl; [done|].
  by rewrite (H1 i m), (H2 j m), (IH (S i) (S j)).
Qed.

Lemma selected_matches v c values :
  matches v c = true → selected v (c, values) = values.
Proof.
  unfold matches, selected; simpl.
  destruct (decide (c = Common)); [done|].
  destruct (NewConstraint c) as [k|]; [|done].
  by intros ->.
Qed.

Lemma selected_unmatched v c values :
  matches v c = false → selected v (c, values) = [].
Proof.
  unfold matches, selected; simpl.
  destruct (decide (c = Common)); [done|].
  destruct (NewConstraint c) as [k|]; [|done].
  by intros ->.
Qed.

Lemma selected_malformed v e : malformed e.1 = true → selected v e = [].
Proof.
  unfold malformed, selected.
  destruct (decide (e.1 = Common)); [done|].
  by destruct (NewConstraint e.1).
Qed.

Lemma admissible_lookup order i (m : VersionMap) c values :
  admissible order → m !! c = Some values → (c, values) ∈ order i m.
Proof. intros Hadm Hm. rewrite (Hadm i m). by apply elem_of_map_to_list. Qed.

Lemma admissible_empty order i : admissible order → order i ∅ = [].
Proof.
  intros Hadm. apply Permutation_nil_r.
  by rewrite (Hadm i ∅), map_to_list_empty.
Qed.

(** The packages of an entry that is visited and matches stand
    together in the output. *)
Lemma visited_block order i v maps pkgs c values :
  (c, values) ∈ visited order i maps → matches v c = true →
  ∃ before after,
    rangeAll order i v maps pkgs = before ++ values ++ after.
Proof.
  intros (l1 & l2 & Hsplit)%list_elem_of_split Hm.
  rewrite rangeAll_selected, Hsplit, bind_app, bind_cons.
  rewrite (selected_matches _ _ _ Hm).
  exists (pkgs ++ (l1 ≫= selected v)), (l2 ≫= selected v).
  by rewrite <- !app_assoc.
Qed.

Lemma elem_of_visited order i maps (m : VersionMap) c values :
  admissible order → m ∈ maps → m !! c = Some values →
  (c, values) ∈ visited order i maps.
Proof.
  intros Hadm Hin Hm. revert i.
  induction maps as [|m' maps IH]; intros i; [by apply elem_of_nil in Hin|].
  simpl. apply elem_of_app.
  apply elem_of_cons in Hin as [<-|Hin].
  - left. by apply admissible_lookup.
  - right. by apply IH.
Qed.

End ResolverFacts.

(** ** Version strings that do not parse *)

(** C1, as amended: each text of the resolver treats a [Version] that
    does not parse in one way, but the two texts differ.  In
    [pkg/values/packagemaps.go] the call fails whole with the version
    parse error, in both boot modes; in the text in [src/Dockerfile] the
    call returns without error exactly the [CommonPackages] list, no
    entry of any catalog being added, not even one keyed [Common]. *)
Theorem C1_unparsable_version `{Semver} (gV : Values.Globals)
    (gD : DockerfileValues.Globals) (TrustedBoot : bool) (order : Order)
    (s : System) :
  NewVersion (sVersion s) = None →
  Values.GetPackages gV TrustedBoot order s = Err VersionParseError ∧
  DockerfileValues.GetPackages gD TrustedBoot order s =
    Ok (DockerfileValues.gCommonPackages gD).
Proof.
  intros Hv. unfold Values.GetPackages, DockerfileValues.GetPackages,
    DockerfileValues.FilterPackagesOnConstraint.
  rewrite Hv. split; [done|]. by rewrite app_nil_r.
Qed.

Lemma C1_unparsable_version_witness :
  NewVersion (Semver := GoVersion.semver) "testing" = None ∧
  Values.GetPackages (H := GoVersion.semver) Values.initial true ascending
    (mkSystem Debian DebianFamily ArchARM64 "testing") = Err VersionParseError ∧
  DockerfileValues.GetPackages (H := GoVersion.semver) DockerfileValues.initial
    true ascending (mkSystem Debian DebianFamily ArchARM64 "testing") =
    Ok DockerfileValues.CommonPackages.
Proof.
  split; [reflexivity|].
  apply (C1_unparsable_version (H := GoVersion.semver) Values.initial
           DockerfileValues.initial true ascending
           (mkSystem Debian DebianFamily ArchARM64 "testing")).
  reflexivity.
Defined.

(** The version [bookworm] does not parse; with it one text of the
    resolver fails and the other returns a list. *)
Lemma C1_counterexample :
  NewVersion (Semver := GoVersion.semver) "bookworm" = None ∧
  Values.GetPackages (H := GoVersion.semver) Values.initial false ascending
    (mkSystem Debian DebianFamily ArchAMD64 "bookworm") = Err VersionParseError ∧
  DockerfileValues.GetPackages (H := GoVersion.semver) DockerfileValues.initial
    false ascending (mkSystem Debian DebianFamily ArchAMD64 "bookworm") =
    Ok DockerfileValues.CommonPackages.
Proof. by vm_compute. Qed.

(** ** Repeated calls *)

Lemma ascending_admissible : admissible ascending.
Proof. by intros i m. Qed.

Lemma descending_admissible : admissible descending.
Proof. intros i m. apply reverse_Permutation. Qed.

Section WalkFacts.
Context `{Semver}.

Lemma selected_by_matches v e :
  selected v e = if matches v e.1 then e.2 else [].
Proof.
  unfold selected, matches. destruct (decide (e.1 = Common)); [done|].
  by destruct (NewConstraint e.1).
Qed.

Lemma visits_walkOf order i (maps : list VersionMap) :
  admissible order → walkOf maps (visits order i maps).
Proof.
  intros Hadm. revert i.
  induction maps as [|m maps IH]; intros i; constructor; [apply Hadm|apply IH].
Qed.

Lemma rangeAll_appended order i v (maps : list VersionMap) pkgs :
  rangeAll order i v maps pkgs = pkgs ++ appended v (visits order i maps).
Proof.
  rewrite rangeAll_selected. f_equal. unfold appended. revert i.
  induction maps as [|m maps IH]; intros i; [done|].
  cbn [visited visits]. rewrite bind_app, bind_cons, IH. f_equal.
  apply list_bind_ext; [|done]. intros e. apply selected_by_matches.
Qed.

Lemma Values_slice g tb s :
  Values.filteredPackages g tb s = Values_catalogs g tb ≫= λ pm, lookups pm s.
Proof. by destruct tb. Qed.

Lemma DockerfileValues_slice g tb s :
  DockerfileValues.filteredPackages g tb s =
  DockerfileValues_catalogs g tb ≫= λ pm, lookups pm s.
Proof. by destruct tb. Qed.

End WalkFacts.

(** C2, as amended: two calls with the same inputs either both fail or
    return lists that are permutations of each other, the same names
    with the same multiplicities.  The order of the names is fixed up to
    the order in which each [range] statement visits the entries of its
    map: each result is [CommonPackages], then, catalog after catalog in
    the sequence of the mode and lookup after lookup in the order
    (distro, any), (family, any), (distro, arch), (family, arch), the
    packages of the matching entries of that map, each entry's packages
    as the catalog lists them; two calls differ at most in the order of
    the entries of one map. *)
Theorem C2_same_packages_up_to_order `{Semver} (gV : Values.Globals)
    (gD : DockerfileValues.Globals) (TrustedBoot : bool)
    (order1 order2 : Order) (s : System) :
  admissible order1 → admissible order2 →
  sameUpToOrder (Values.GetPackages gV TrustedBoot order1 s)
                (Values.GetPackages gV TrustedBoot order2 s) ∧
  sameUpToOrder (DockerfileValues.GetPackages gD TrustedBoot order1 s)
                (DockerfileValues.GetPackages gD TrustedBoot order2 s) ∧
  (∀ v, NewVersion (sVersion s) = Some v →
     ∃ walk1 walk2,
       walkOf (Values_catalogs gV TrustedBoot ≫= λ pm, lookups pm s) walk1 ∧
       walkOf (Values_catalogs gV TrustedBoot ≫= λ pm, lookups pm s) walk2 ∧
       Values.GetPackages gV TrustedBoot order1 s =
         Ok (Values.gCommonPackages gV ++ appended v walk1) ∧
       Values.GetPackages gV TrustedBoot order2 s =
         Ok (Values.gCommonPackages gV ++ appended v walk2)) ∧
  (∀ v, NewVersion (sVersion s) = Some v →
     ∃ walk1 walk2,
       walkOf (DockerfileValues_catalogs gD TrustedBoot ≫= λ pm, lookups pm s)
         walk1 ∧
       walkOf (DockerfileValues_catalogs gD TrustedBoot ≫= λ pm, lookups pm s)
         walk2 ∧
       DockerfileValues.GetPackages gD TrustedBoot order1 s =
         Ok (DockerfileValues.gCommonPackages gD ++ appended v walk1) ∧
       DockerfileValues.GetPackages gD TrustedBoot order2 s =
         Ok (DockerfileValues.gCommonPackages gD ++ appended v walk2)).
Proof.
  intros H1 H2.
  unfold Values.GetPackages, DockerfileValues.GetPackages,
    DockerfileValues.FilterPackagesOnConstraint.
  destruct (NewVersion (sVersion s)) as [v|]; simpl;
    [|by repeat split].
  split; [|split; [|split]].
  - rewrite !rangeAll_selected.
    apply Permutation_app_head, bind_Permutation. by apply visited_Permutation.
  - rewrite !rangeAll_selected. simpl.
    apply Permutation_app_head, bind_Permutation. by apply visited_Permutation.
  - intros v' [= <-].
    exists (visits order1 0 (Values.filteredPackages gV TrustedBoot s)),
      (visits order2 0 (Values.filteredPackages gV TrustedBoot s)).
    rewrite <- Values_slice, !rangeAll_appended.
    repeat split; by apply visits_walkOf.
  - intros v' [= <-].
    exists (visits order1 0 (DockerfileValues.filteredPackages gD TrustedBoot s)),
      (visits order2 0 (DockerfileValues.filteredPackages gD TrustedBoot s)).
    rewrite <- DockerfileValues_slice, !rangeAll_appended.
    repeat split; by apply visits_walkOf.
Qed.

Lemma C2_same_packages_up_to_order_witness :
  admissible ascending ∧ admissible descending ∧
  NewVersion (Semver := GoVersion.semver) "24.04" = Some [24; 4; 0]%Z ∧
  sameUpToOrder
    (Values.GetPackages (H := GoVersion.semver) Values.initial false ascending
       (mkSystem Ubuntu DebianFamily ArchAMD64 "24.04"))
    (Values.GetPackages (H := GoVersion.semver) Values.initial false descending
       (mkSystem Ubuntu DebianFamily ArchAMD64 "24.04")) ∧
  ∃ walk1 walk2,
    walkOf (Values_catalogs Values.initial false ≫= λ pm,
              lookups pm (mkSystem Ubuntu DebianFamily ArchAMD64 "24.04"))
      walk1 ∧
    walkOf (Values_catalogs Values.initial false ≫= λ pm,
              lookups pm (mkSystem Ubuntu DebianFamily ArchAMD64 "24.04"))
      walk2 ∧
    Values.GetPackages (H := GoVersion.semver) Values.initial false ascending
      (mkSystem Ubuntu DebianFamily ArchAMD64 "24.04") =
      Ok (Values.CommonPackages ++
          appended (H := GoVersion.semver) [24; 4; 0]%Z walk1) ∧
    Values.GetPackages (H := GoVersion.semver) Values.initial false descending
      (mkSystem Ubuntu DebianFamily ArchAMD64 "24.04") =
      Ok (Values.CommonPackages ++
          appended (H := GoVersion.semver) [24; 4; 0]%Z walk2).
Proof.
  split; [intros i m; reflexivity|].
  split; [intros i m; apply reverse_Permutation|].
  split; [reflexivity|].
  destruct (C2_same_packages_up_to_order (H := GoVersion.semver)
              Values.initial DockerfileValues.initial false
              ascending descending
              (mkSystem Ubuntu DebianFamily ArchAMD64 "24.04"))
    as (Hperm & _ & Hwalk & _).
  - intros i m. reflexivity.
  - intros i m. apply reverse_Permutation.
  - split; [exact Hperm|]. apply (Hwalk [24; 4; 0]%Z). reflexivity.
Defined.

(** For Ubuntu 24.04 the Base catalog has two matching entries under one
    lookup; visiting them in either order gives two different lists. *)
Lemma C2_counterexample :
  admissible ascending ∧ admissible descending ∧
  Values.GetPackages (H := GoVersion.semver) Values.initial false ascending
    (mkSystem Ubuntu DebianFamily ArchAMD64 "24.04") ≠
  Values.GetPackages (H := GoVersion.semver) Values.initial false descending
    (mkSystem Ubuntu DebianFamily ArchAMD64 "24.04") ∧
  DockerfileValues.GetPackages (H := GoVersion.semver) DockerfileValues.initial
    false ascending (mkSystem Ubuntu DebianFamily ArchAMD64 "24.04") ≠
  DockerfileValues.GetPackages (H := GoVersion.semver) DockerfileValues.initial
    false descending (mkSystem Ubuntu DebianFamily ArchAMD64 "24.04").
Proof.
  split; [apply ascending_admissible|].
  split; [apply descending_admissible|].
  split; vm_compute; intros Heq; by simplify_eq.
Qed.

(** ** Catalogs read in each boot mode *)

Ltac here_or_further :=
  apply list_elem_of_In; simpl;
  repeat first [left; reflexivity | right].

Ltac lookup_is_ranged :=
  let Hk := fresh in let Ha := fresh in
  intros Hk Ha;
  apply list_elem_of_In in Hk; apply list_elem_of_In in Ha;
  simpl in Hk, Ha;
  destruct Hk as [<-|[<-|[]]]; destruct Ha as [<-|[<-|[]]];
  here_or_further.

Section ModeFacts.
Context `{Semver}.

Lemma drawnFrom_ranged order v maps pkgs pm s :
  admissible order →
  (∀ (k : DistroFamilyInterface) a,
     k ∈ [OfDistro (sDistro s); OfFamily (sFamily s)] →
     a ∈ [ArchCommon; sArch s] → index pm k a ∈ maps) →
  drawnFrom (rangeAll order 0 v maps pkgs) v pm s.
Proof.
  intros Hadm Hin k a c values Hk Ha Hm Hmatch.
  apply (visited_block _ _ _ _ _ c); [|done].
  eapply elem_of_visited; [done|by apply Hin|done].
Qed.

Lemma drawnFrom_app pre out v pm s :
  drawnFrom out v pm s → drawnFrom (pre ++ out) v pm s.
Proof.
  intros Hd k a c values Hk Ha Hm Hmatch.
  destruct (Hd k a c values Hk Ha Hm Hmatch) as (b & e & ->).
  exists (pre ++ b), e. by rewrite <- app_assoc.
Qed.

Lemma elem_of_entriesOf (pm : PackageMap) k a c values :
  index pm k a !! c = Some values → (c, values) ∈ entriesOf pm.
Proof.
  unfold index, entriesOf. intros Hm.
  destruct (pm !! k) as [am|] eqn:Hk; simpl in Hm;
    [|by rewrite lookup_empty in Hm].
  destruct (am !! a) as [vm|] eqn:Ha; simpl in Hm;
    [|by rewrite lookup_empty in Hm].
  apply list_elem_of_bind. exists (k, am).
  split; [|by apply elem_of_map_to_list].
  apply list_elem_of_bind. exists (a, vm).
  split; [|by apply elem_of_map_to_list].
  by apply elem_of_map_to_list.
Qed.

Lemma elem_of_packagesOf (pm : PackageMap) k a c values p :
  index pm k a !! c = Some values → p ∈ values → p ∈ packagesOf pm.
Proof.
  intros Hm%elem_of_entriesOf Hp.
  apply list_elem_of_bind. by exists (c, values).
Qed.

Lemma selected_subseteq v e p :
  p ∈ selected v e → p ∈ e.2 ∧ matches v e.1 = true.
Proof.
  unfold selected, matches. destruct (decide (e.1 = Common)); [done|].
  destruct (NewConstraint e.1) as [k|]; [|by intros ?%elem_of_nil].
  destruct (Check k v); [done|by intros ?%elem_of_nil].
Qed.

(** Whatever the loops append was listed under a key that matches, in
    one of the maps ranged over. *)
Lemma elem_of_rangeAll order i v maps p :
  admissible order → p ∈ rangeAll order i v maps [] →
  ∃ (m : VersionMap) c values,
    m ∈ maps ∧ m !! c = Some values ∧ p ∈ values ∧ matches v c = true.
Proof.
  intros Hadm. rewrite rangeAll_selected. simpl.
  intros ([c values] & [Hp Hmatch]%selected_subseteq & He)%list_elem_of_bind.
  simpl in Hp, Hmatch. revert i He.
  induction maps as [|m maps IH]; intros i He; simpl in He;
    [by apply elem_of_nil in He|].
  apply elem_of_app in He as [He|He].
  - exists m, c, values. split; [by left|]. split; [|done].
    rewrite (Hadm i m) in He. by apply elem_of_map_to_list in He.
  - destruct (IH _ He) as (m' & c' & values' & ? & ? & ?).
    exists m', c', values'. split; [by right|done].
Qed.

End ModeFacts.

Section Membership.
Context `{Semver}.

Lemma elem_of_rangeAll_iff order i v (maps : list VersionMap) pkgs p :
  admissible order →
  p ∈ rangeAll order i v maps pkgs ↔
  p ∈ pkgs ∨
  ∃ (m : VersionMap) c values,
    m ∈ maps ∧ m !! c = Some values ∧ p ∈ values ∧ matches v c = true.
Proof.
  intros Hadm. split.
  - rewrite rangeAll_selected. intros [Hp|Hp]%elem_of_app; [by left|right].
    apply (elem_of_rangeAll order i v maps p Hadm).
    by rewrite rangeAll_selected.
  - intros [Hp|(m & c & values & Hm & Hc & Hp & Hmatch)].
    + rewrite rangeAll_selected. apply elem_of_app. by left.
    + destruct (visited_block order i v maps pkgs c values)
        as (before & after & ->); [by eapply elem_of_visited|done|].
      apply elem_of_app. right. apply elem_of_app. by left.
Qed.

Lemma Values_ranged_axes g tb s (m : VersionMap) :
  m ∈ Values.filteredPackages g tb s ↔
  ∃ pm (k : DistroFamilyInterface) a,
    pm ∈ Values_catalogs g tb ∧
    k ∈ [OfDistro (sDistro s); OfFamily (sFamily s)] ∧
    a ∈ [ArchCommon; sArch s] ∧ m = index pm k a.
Proof.
  unfold Values.filteredPackages, Values_catalogs. split.
  - intros Hm. apply list_elem_of_In in Hm.
    destruct tb; simpl in Hm;
      repeat (destruct Hm as [<-|Hm];
              [eexists _, _, _; repeat split; here_or_further|]);
      destruct Hm.
  - intros (pm & k & a & Hpm & Hk & Ha & ->).
    apply list_elem_of_In in Hpm. revert Hk Ha.
    destruct tb; simpl in Hpm;
      repeat (destruct Hpm as [<-|Hpm]; [lookup_is_ranged|]);
      destruct Hpm.
Qed.

Lemma DockerfileValues_ranged_axes g tb s (m : VersionMap) :
  m ∈ DockerfileValues.filteredPackages g tb s ↔
  ∃ pm (k : DistroFamilyInterface) a,
    pm ∈ DockerfileValues_catalogs g tb ∧
    k ∈ [OfDistro (sDistro s); OfFamily (sFamily s)] ∧
    a ∈ [ArchCommon; sArch s] ∧ m = index pm k a.
Proof.
  unfold DockerfileValues.filteredPackages, DockerfileValues_catalogs. split.
  - intros Hm. apply list_elem_of_In in Hm.
    destruct tb; simpl in Hm;
      repeat (destruct Hm as [<-|Hm];
              [eexists _, _, _; repeat split; here_or_further|]);
      destruct Hm.
  - intros (pm & k & a & Hpm & Hk & Ha & ->).
    apply list_elem_of_In in Hpm. revert Hk Ha.
    destruct tb; simpl in Hpm;
      repeat (destruct Hpm as [<-|Hpm]; [lookup_is_ranged|]);
      destruct Hpm.
Qed.

End Membership.

(** C3, as amended.  In the text in [src/Dockerfile], trusted boot draws
    from Base, the trusted-boot kernel catalog and the systemd catalog,
    and its result does not depend on the ordinary kernel, grub and
    immucore catalogs; legacy mode draws from Base, kernel, grub and
    immucore.  In [pkg/values/packagemaps.go] there is no trusted-boot
    kernel catalog: the ordinary kernel catalog is drawn from in both
    modes, and trusted boot only replaces grub and immucore by systemd.
    Base is drawn from in both modes of both texts. *)
Theorem C3_catalogs_by_mode `{Semver} (order : Order) (s : System)
    (v : SemverVersion) :
  NewVersion (sVersion s) = Some v → admissible order →
  (∀ g, ∃ out,
     DockerfileValues.GetPackages g true order s = Ok out ∧
     drawnFrom out v (DockerfileValues.gBasePackages g) s ∧
     drawnFrom out v (DockerfileValues.gKernelPackagesTrustedBoot g) s ∧
     drawnFrom out v (DockerfileValues.gSystemdPackages g) s) ∧
  (∀ g, ∃ out,
     DockerfileValues.GetPackages g false order s = Ok out ∧
     drawnFrom out v (DockerfileValues.gBasePackages g) s ∧
     drawnFrom out v (DockerfileValues.gKernelPackages g) s ∧
     drawnFrom out v (DockerfileValues.gGrubPackages g) s ∧
     drawnFrom out v (DockerfileValues.gImmucorePackages g) s) ∧
  (∀ g g',
     DockerfileValues.gCommonPackages g = DockerfileValues.gCommonPackages g' →
     DockerfileValues.gBasePackages g = DockerfileValues.gBasePackages g' →
     DockerfileValues.gKernelPackagesTrustedBoot g =
       DockerfileValues.gKernelPackagesTrustedBoot g' →
     DockerfileValues.gSystemdPackages g = DockerfileValues.gSystemdPackages g' →
     DockerfileValues.GetPackages g true order s =
     DockerfileValues.GetPackages g' true order s) ∧
  (∀ g, ∃ out,
     Values.GetPackages g true order s = Ok out ∧
     drawnFrom out v (Values.gBasePackages g) s ∧
     drawnFrom out v (Values.gKernelPackages g) s ∧
     drawnFrom out v (Values.gSystemdPackages g) s) ∧
  (∀ g, ∃ out,
     Values.GetPackages g false order s = Ok out ∧
     drawnFrom out v (Values.gBasePackages g) s ∧
     drawnFrom out v (Values.gKernelPackages g) s ∧
     drawnFrom out v (Values.gGrubPackages g) s ∧
     drawnFrom out v (Values.gImmucorePackages g) s) ∧
  (∀ g g',
     Values.gCommonPackages g = Values.gCommonPackages g' →
     Values.gBasePackages g = Values.gBasePackages g' →
     Values.gKernelPackages g = Values.gKernelPackages g' →
     Values.gSystemdPackages g = Values.gSystemdPackages g' →
     Values.GetPackages g true order s = Values.GetPackages g' true order s).
Proof.
  intros Hv Hadm.
  unfold DockerfileValues.GetPackages,
    DockerfileValues.FilterPackagesOnConstraint, Values.GetPackages.
  rewrite Hv.
  repeat split.
  - intros g. eexists. split; [done|].
    repeat split; apply drawnFrom_app, drawnFrom_ranged; try done;
      intros k a; unfold DockerfileValues.filteredPackages; lookup_is_ranged.
  - intros g. eexists. split; [done|].
    repeat split; apply drawnFrom_app, drawnFrom_ranged; try done;
      intros k a; unfold DockerfileValues.filteredPackages; lookup_is_ranged.
  - intros g g' Hc Hb Hk Hs.
    unfold DockerfileValues.filteredPackages. by rewrite Hc, Hb, Hk, Hs.
  - intros g. eexists. split; [done|].
    repeat split; apply drawnFrom_ranged; try done;
      intros k a; unfold Values.filteredPackages; lookup_is_ranged.
  - intros g. eexists. split; [done|].
    repeat split; apply drawnFrom_ranged; try done;
      intros k a; unfold Values.filteredPackages; lookup_is_ranged.
  - intros g g' Hc Hb Hk Hs.
    unfold Values.filteredPackages. by rewrite Hc, Hb, Hk, Hs.
Qed.

Lemma C3_catalogs_by_mode_witness :
  NewVersion (Semver := GoVersion.semver) "12" = Some [12; 0; 0]%Z ∧
  admissible ascending ∧
  ∃ out,
    DockerfileValues.GetPackages (H := GoVersion.semver)
      DockerfileValues.initial true ascending
      (mkSystem Debian DebianFamily ArchAMD64 "12") = Ok out ∧
    drawnFrom (H := GoVersion.semver) out [12; 0; 0]%Z
      DockerfileValues.KernelPackagesTrustedBoot
      (mkSystem Debian DebianFamily ArchAMD64 "12").
Proof.
  split; [reflexivity|]. split; [intros i m; reflexivity|].
  destruct (C3_catalogs_by_mode (H := GoVersion.semver) ascending
              (mkSystem Debian DebianFamily ArchAMD64 "12") [12; 0; 0]%Z)
    as [Htrusted _].
  - reflexivity.
  - intros i m. reflexivity.
  - destruct (Htrusted DockerfileValues.initial) as (out & Hout & _ & Hk & _).
    exists out. split; [exact Hout|exact Hk].
Defined.

(** In [pkg/values/packagemaps.go] the ordinary kernel catalog does
    contribute in trusted boot: emptying it changes the result for a
    Debian system. *)
Lemma C3_counterexample :
  Values.GetPackages (H := GoVersion.semver) Values.initial true ascending
    (mkSystem Debian DebianFamily ArchAMD64 "12") ≠
  Values.GetPackages (H := GoVersion.semver)
    {| Values.gCommonPackages := Values.CommonPackages;
       Values.gImmucorePackages := Values.ImmucorePackages;
       Values.gKernelPackages := ∅;
       Values.gBasePackages := Values.BasePackages;
       Values.gGrubPackages := Values.GrubPackages;
       Values.gSystemdPackages := Values.SystemdPackages |}
    true ascending (mkSystem Debian DebianFamily ArchAMD64 "12").
Proof. vm_compute. intros Heq. by simplify_eq. Qed.

(** ** The two modes compared *)

Lemma index_initial_disjoint (l1 l2 : list string) :
  Forall (λ p, p ∉ l2) l1 → ∀ p, p ∈ l1 → p ∈ l2 → False.
Proof. intros Hall p Hp. by apply (proj1 (Forall_forall _ _) Hall p). Qed.

Lemma DockerfileValues_boot_disjoint p :
  p ∈ packagesOf DockerfileValues.SystemdPackages →
  p ∈ packagesOf DockerfileValues.GrubPackages ++
      packagesOf DockerfileValues.ImmucorePackages → False.
Proof.
  apply index_initial_disjoint.
  apply (bool_decide_unpack _). by vm_compute.
Qed.

Lemma Values_boot_disjoint p :
  p ∈ packagesOf Values.SystemdPackages →
  p ∈ packagesOf Values.GrubPackages ++
      packagesOf Values.ImmucorePackages → False.
Proof.
  apply index_initial_disjoint.
  apply (bool_decide_unpack _). by vm_compute.
Qed.

Section ModesCompared.
Context `{Semver}.

Ltac one_of_the_lookups Hm :=
  apply list_elem_of_In in Hm; simpl in Hm;
  repeat (destruct Hm as [<-|Hm]; [by eapply elem_of_packagesOf|]);
  destruct Hm.

Lemma DockerfileValues_trusted_boot g order v s p :
  admissible order →
  p ∈ contribution order v (DockerfileValues.filteredPackages g true s) 8 8 →
  p ∈ packagesOf (DockerfileValues.gSystemdPackages g).
Proof.
  intros Hadm (m & c & values & Hm & Hc & Hp & _)%elem_of_rangeAll; [|done].
  unfold DockerfileValues.filteredPackages in Hm. one_of_the_lookups Hm.
Qed.

Lemma DockerfileValues_legacy_boot g order v s p :
  admissible order →
  p ∈ contribution order v (DockerfileValues.filteredPackages g false s) 8 8 →
  p ∈ packagesOf (DockerfileValues.gGrubPackages g) ++
      packagesOf (DockerfileValues.gImmucorePackages g).
Proof.
  intros Hadm (m & c & values & Hm & Hc & Hp & _)%elem_of_rangeAll; [|done].
  unfold DockerfileValues.filteredPackages in Hm. apply elem_of_app.
  apply list_elem_of_In in Hm; simpl in Hm.
  do 4 (destruct Hm as [<-|Hm]; [left; by eapply elem_of_packagesOf|]).
  do 4 (destruct Hm as [<-|Hm]; [right; by eapply elem_of_packagesOf|]).
  destruct Hm.
Qed.

Lemma Values_trusted_boot g order v s p :
  admissible order →
  p ∈ contribution order v (Values.filteredPackages g true s) 8 8 →
  p ∈ packagesOf (Values.gSystemdPackages g).
Proof.
  intros Hadm (m & c & values & Hm & Hc & Hp & _)%elem_of_rangeAll; [|done].
  unfold Values.filteredPackages in Hm. one_of_the_lookups Hm.
Qed.

Lemma Values_legacy_boot g order v s p :
  admissible order →
  p ∈ contribution order v (Values.filteredPackages g false s) 8 8 →
  p ∈ packagesOf (Values.gGrubPackages g) ++
      packagesOf (Values.gImmucorePackages g).
Proof.
  intros Hadm (m & c & values & Hm & Hc & Hp & _)%elem_of_rangeAll; [|done].
  unfold Values.filteredPackages in Hm. apply elem_of_app.
  apply list_elem_of_In in Hm; simpl in Hm.
  do 4 (destruct Hm as [<-|Hm]; [left; by eapply elem_of_packagesOf|]).
  do 4 (destruct Hm as [<-|Hm]; [right; by eapply elem_of_packagesOf|]).
  destruct Hm.
Qed.

Lemma DockerfileValues_parts g tb order s v :
  NewVersion (sVersion s) = Some v →
  DockerfileValues.GetPackages g tb order s =
  Ok (DockerfileValues.gCommonPackages g ++
      contribution order v (DockerfileValues.filteredPackages g tb s) 0 4 ++
      contribution order v (DockerfileValues.filteredPackages g tb s) 4 4 ++
      contribution order v (DockerfileValues.filteredPackages g tb s) 8 8).
Proof.
  intros Hv. unfold DockerfileValues.GetPackages,
    DockerfileValues.FilterPackagesOnConstraint, contribution.
  rewrite Hv, !rangeAll_selected. f_equal. f_equal.
  destruct tb; simpl; rewrite ?bind_app, ?app_nil_r, <- ?app_assoc; done.
Qed.

Lemma Values_parts g tb order s v :
  NewVersion (sVersion s) = Some v →
  Values.GetPackages g tb order s =
  Ok (Values.gCommonPackages g ++
      contribution order v (Values.filteredPackages g tb s) 0 4 ++
      contribution order v (Values.filteredPackages g tb s) 4 4 ++
      contribution order v (Values.filteredPackages g tb s) 8 8).
Proof.
  intros Hv. unfold Values.GetPackages, contribution.
  rewrite Hv, !rangeAll_selected. f_equal. f_equal.
  destruct tb; simpl; rewrite ?bind_app, ?app_nil_r, <- ?app_assoc; done.
Qed.

End ModesCompared.

(** C4, as amended.  For a [Version] that parses, the result of either
    mode is [CommonPackages], then the contribution of Base, then that
    of the kernel catalog, then that of the boot catalogs; the first two
    parts are the same in both modes (for one order of visit).  With the
    catalogs of the sources, the boot part of trusted boot (systemd) and
    the boot part of legacy mode (grub and immucore) have no package in
    common.  Nothing of the kind holds of the kernel parts: in
    [pkg/values/packagemaps.go] they are one and the same in both
    modes. *)
Theorem C4_modes_compared `{Semver} (order order' : Order) (s : System)
    (v : SemverVersion) :
  NewVersion (sVersion s) = Some v → admissible order → admissible order' →
  (∀ g tb,
     DockerfileValues.GetPackages g tb order s =
     Ok (DockerfileValues.gCommonPackages g ++
         contribution order v (DockerfileValues.filteredPackages g tb s) 0 4 ++
         contribution order v (DockerfileValues.filteredPackages g tb s) 4 4 ++
         contribution order v (DockerfileValues.filteredPackages g tb s) 8 8)) ∧
  (∀ g,
     contribution order v (DockerfileValues.filteredPackages g true s) 0 4 =
     contribution order v (DockerfileValues.filteredPackages g false s) 0 4) ∧
  (∀ p,
     p ∈ contribution order v
           (DockerfileValues.filteredPackages DockerfileValues.initial true s) 8 8 →
     p ∉ contribution order' v
           (DockerfileValues.filteredPackages DockerfileValues.initial false s) 8 8) ∧
  (∀ g tb,
     Values.GetPackages g tb order s =
     Ok (Values.gCommonPackages g ++
         contribution order v (Values.filteredPackages g tb s) 0 4 ++
         contribution order v (Values.filteredPackages g tb s) 4 4 ++
         contribution order v (Values.filteredPackages g tb s) 8 8)) ∧
  (∀ g,
     contribution order v (Values.filteredPackages g true s) 0 4 =
     contribution order v (Values.filteredPackages g false s) 0 4) ∧
  (∀ g,
     contribution order v (Values.filteredPackages g true s) 4 4 =
     contribution order v (Values.filteredPackages g false s) 4 4) ∧
  (∀ p,
     p ∈ contribution order v (Values.filteredPackages Values.initial true s) 8 8 →
     p ∉ contribution order' v (Values.filteredPackages Values.initial false s) 8 8).
Proof.
  intros Hv Hadm Hadm'. repeat split.
  - intros g tb. by apply DockerfileValues_parts.
  - intros p Hp Hp'.
    apply DockerfileValues_trusted_boot in Hp; [|done].
    apply DockerfileValues_legacy_boot in Hp'; [|done].
    exact (DockerfileValues_boot_disjoint p Hp Hp').
  - intros g tb. by apply Values_parts.
  - intros p Hp Hp'.
    apply Values_trusted_boot in Hp; [|done].
    apply Values_legacy_boot in Hp'; [|done].
    exact (Values_boot_disjoint p Hp Hp').
Qed.

Lemma C4_modes_compared_witness :
  NewVersion (Semver := GoVersion.semver) "24.04" = Some [24; 4; 0]%Z ∧
  admissible ascending ∧ admissible descending ∧
  ∀ p,
    p ∈ contribution (H := GoVersion.semver) ascending [24; 4; 0]%Z
          (DockerfileValues.filteredPackages DockerfileValues.initial true
             (mkSystem Ubuntu DebianFamily ArchAMD64 "24.04")) 8 8 →
    p ∉ contribution (H := GoVersion.semver) descending [24; 4; 0]%Z
          (DockerfileValues.filteredPackages DockerfileValues.initial false
             (mkSystem Ubuntu DebianFamily ArchAMD64 "24.04")) 8 8.
Proof.
  split; [reflexivity|].
  split; [intros i m; reflexivity|].
  split; [intros i m; apply reverse_Permutation|].
  destruct (C4_modes_compared (H := GoVersion.semver) ascending descending
              (mkSystem Ubuntu DebianFamily ArchAMD64 "24.04") [24; 4; 0]%Z)
    as (_ & _ & Hdisjoint & _).
  - reflexivity.
  - intros i m. reflexivity.
  - intros i m. apply reverse_Permutation.
  - exact Hdisjoint.
Defined.

(** For a Debian system the kernel and boot packages of the two modes
    overlap in the text in [src/Dockerfile]: both kernel catalogs list
    [linux-image-amd64]. *)
Lemma C4_counterexample :
  NewVersion (Semver := GoVersion.semver) "12" = Some [12; 0; 0]%Z ∧
  "linux-image-amd64" ∈
    contribution (H := GoVersion.semver) ascending [12; 0; 0]%Z
      (DockerfileValues.filteredPackages DockerfileValues.initial true
         (mkSystem Debian DebianFamily ArchAMD64 "12")) 4 12 ∧
  "linux-image-amd64" ∈
    contribution (H := GoVersion.semver) ascending [12; 0; 0]%Z
      (DockerfileValues.filteredPackages DockerfileValues.initial false
         (mkSystem Debian DebianFamily ArchAMD64 "12")) 4 12.
Proof.
  split; [reflexivity|].
  split; apply (bool_decide_unpack _); by vm_compute.
Qed.

(** ** Template expansion *)

Section ExpansionFacts.
Context `{TemplateEngine}.

Lemma expandFrom_inr packages params acc out :
  expandFrom packages params acc = inr out →
  ∃ rs, out = acc ++ rs ∧ Forall2 (expandsTo params) packages rs.
Proof.
  revert acc. induction packages as [|pkg rest IH]; intros acc; simpl.
  - intros [= <-]. exists []. by rewrite app_nil_r.
  - destruct (Parse pkg) as [e|tmpl] eqn:Hp; [done|].
    destruct (Execute tmpl params) as [e|r] eqn:He; [done|].
    intros (rs & -> & Hall)%IH. exists (r :: rs).
    split; [by rewrite <- app_assoc|].
    constructor; [by exists tmpl|done].
Qed.

Lemma expandFrom_inl packages params acc err :
  expandFrom packages params acc = inl err →
  ∃ before pkg after rs,
    packages = before ++ pkg :: after ∧
    Forall2 (expandsTo params) before rs ∧
    stopsWith params pkg err.
Proof.
  revert acc. induction packages as [|pkg rest IH]; intros acc; simpl; [done|].
  destruct (Parse pkg) as [e|tmpl] eqn:Hp.
  { intros [= ->]. exists [], pkg, rest, []. repeat split; [constructor|by left]. }
  destruct (Execute tmpl params) as [e|r] eqn:He.
  { intros [= ->]. exists [], pkg, rest, [].
    repeat split; [constructor|right; by exists tmpl]. }
  intros (before & pkg' & after & rs & -> & Hall & Hstop)%IH.
  exists (pkg :: before), pkg', after, (r :: rs).
  repeat split; [|done]. constructor; [by exists tmpl|done].
Qed.

End ExpansionFacts.

Section GoTemplateFacts.
Import GoTemplate.

Lemma list_ascii_of_string_app (s1 s2 : string) :
  list_ascii_of_string (s1 +:+ s2) =
  list_ascii_of_string s1 ++ list_ascii_of_string s2.
Proof. induction s1 as [|c s1 IH]; simpl; [done|by rewrite IH]. Qed.

Lemma scan_text_step c cs acc :
  c ≠ "{"%char → scan (c :: cs) false acc = scan cs false (c :: acc).
Proof.
  intros Hc. simpl. destruct cs as [|c2 cs]; [done|].
  destruct (decide (c = "{"%char ∧ c2 = "{"%char)) as [[? _]|]; done.
Qed.

Lemma scan_text_run pre cs acc :
  "{"%char ∉ pre → scan (pre ++ cs) false acc = scan cs false (reverse pre ++ acc).
Proof.
  revert acc. induction pre as [|c pre IH]; intros acc Hpre; [done|].
  apply not_elem_of_cons in Hpre as [Hc Hpre].
  rewrite <- app_comm_cons, scan_text_step by done.
  rewrite IH by done. by rewrite reverse_cons, <- app_assoc.
Qed.

Lemma scan_action_step c cs acc :
  c ≠ "}"%char → scan (c :: cs) true acc = scan cs true (c :: acc).
Proof.
  intros Hc. simpl. destruct cs as [|c2 cs]; [done|].
  destruct (decide (c = "}"%char ∧ c2 = "}"%char)) as [[? _]|]; done.
Qed.

Lemma scan_action_run body cs acc :
  "}"%char ∉ body → scan (body ++ cs) true acc = scan cs true (reverse body ++ acc).
Proof.
  revert acc. induction body as [|c body IH]; intros acc Hbody; [done|].
  apply not_elem_of_cons in Hbody as [Hc Hbody].
  rewrite <- app_comm_cons, scan_action_step by done.
  rewrite IH by done. by rewrite reverse_cons, <- app_assoc.
Qed.

Lemma scan_open cs acc :
  scan ("{"%char :: "{"%char :: cs) false acc =
  match scan cs true [] with
  | inr nodes => inr (text (reverse acc) ++ nodes)
  | inl err => inl err
  end.
Proof. reflexivity. Qed.

Lemma scan_close cs acc :
  scan ("}"%char :: "}"%char :: cs) true acc =
  match field (reverse acc) with
  | Some ident =>
      match scan cs false [] with
      | inr nodes => inr (FieldNode ident :: nodes)
      | inl err => inl err
      end
  | None => inl Unmodelled
  end.
Proof. reflexivity. Qed.

Lemma scan_plain cs : "{"%char ∉ cs → scan cs false [] = inr (text cs).
Proof.
  intros Hcs. rewrite <- (app_nil_r cs) at 1.
  rewrite scan_text_run by done. simpl.
  by rewrite app_nil_r, reverse_involutive.
Qed.

Lemma scan_unclosed body acc :
  "}"%char ∉ body → scan body true acc = inl TemplateSyntaxError.
Proof.
  intros Hbody. rewrite <- (app_nil_r body), scan_action_run by done. done.
Qed.

Lemma alphanumeric_plain c :
  isAlphaNumeric c = true → c ≠ "}"%char ∧ isSpace c = false.
Proof.
  destruct c as [[] [] [] [] [] [] [] []]; vm_compute; intros; split; congruence.
Qed.

Lemma letter_alphanumeric c : isLetter c = true → isAlphaNumeric c = true.
Proof. unfold isAlphaNumeric. by intros ->. Qed.

Lemma trimLeft_head c cs : isSpace c = false → trimLeft (c :: cs) = c :: cs.
Proof. simpl. by intros ->. Qed.

Lemma trimLeft_reverse_snoc cs c :
  isSpace c = false → trimLeft (reverse (cs ++ [c])) = reverse (cs ++ [c]).
Proof. intros Hc. rewrite reverse_app. simpl. by rewrite Hc. Qed.

Lemma field_of_identifier (key : string) :
  identifier key →
  field ("."%char :: list_ascii_of_string key) = Some key ∧
  "}"%char ∉ list_ascii_of_string key.
Proof.
  unfold identifier.
  destruct (list_ascii_of_string key) as [|c rest] eqn:Hchars; [done|].
  intros [Hc Hrest]%andb_prop.
  assert (Hall : Forall (λ x, isAlphaNumeric x = true) (c :: rest)).
  { constructor; [by apply letter_alphanumeric|].
    apply Forall_forall. intros x Hx.
    apply (proj1 (forallb_forall _ _) Hrest). by apply list_elem_of_In. }
  split.
  - unfold field, trim. rewrite trimLeft_head by done.
    assert (∃ body x, "."%char :: c :: rest = body ++ [x] ∧
                      isSpace x = false) as (body & x & Hbody & Hx).
    { destruct (exists_last (l := c :: rest)) as (body & x & Hsnoc); [done|].
      exists ("."%char :: body), x. rewrite Hsnoc. split; [done|].
      rewrite Hsnoc in Hall.
      apply Forall_app in Hall as [_ Hx%Forall_inv].
      by apply alphanumeric_plain. }
    rewrite Hbody, trimLeft_reverse_snoc, reverse_involutive by done.
    rewrite <- Hbody, Hc, Hrest.
    pose proof (string_of_list_ascii_of_string key) as Hk.
    rewrite Hchars in Hk. cbn [andb]. by rewrite Hk.
  - intros Hin. rewrite Forall_forall in Hall.
    by destruct (alphanumeric_plain _ (Hall _ Hin)).
Qed.

Lemma append_empty_r (s : string) : s +:+ "" = s.
Proof.
  induction s as [|c s IH]; [done|].
  change (String c (s +:+ "") = String c s). by rewrite IH.
Qed.

Lemma append_assoc (s1 s2 s3 : string) :
  (s1 +:+ s2) +:+ s3 = s1 +:+ (s2 +:+ s3).
Proof.
  induction s1 as [|c s1 IH]; [done|].
  change (String c ((s1 +:+ s2) +:+ s3) = String c (s1 +:+ (s2 +:+ s3))).
  by rewrite IH.
Qed.

Lemma value_text params cs :
  foldr String.append "" (value params <$> text cs) = string_of_list_ascii cs.
Proof.
  destruct cs as [|c cs]; [done|]. simpl.
  by rewrite append_empty_r.
Qed.

Lemma foldr_append_app (l1 l2 : list string) :
  foldr String.append "" (l1 ++ l2) =
  foldr String.append "" l1 +:+ foldr String.append "" l2.
Proof.
  induction l1 as [|x l1 IH]; simpl; [done|].
  by rewrite IH, append_assoc.
Qed.

Lemma Parse_placeholder (prefix key suffix : string) :
  plain prefix → identifier key → plain suffix →
  Parse (prefix +:+ "{{." +:+ key +:+ "}}" +:+ suffix) =
  inr (text (list_ascii_of_string prefix) ++
       FieldNode key :: text (list_ascii_of_string suffix)).
Proof.
  intros Hprefix [Hfield Hkey]%field_of_identifier Hsuffix.
  unfold Parse, plain in *.
  rewrite !list_ascii_of_string_app, scan_text_run by done.
  rewrite app_nil_r.
  change (list_ascii_of_string "{{.") with ["{"; "{"; "."]%char.
  change (list_ascii_of_string "}}") with ["}"; "}"]%char.
  cbn [app]. rewrite scan_open.
  rewrite scan_action_step by done.
  rewrite scan_action_run by done.
  rewrite scan_close.
  rewrite reverse_app, reverse_involutive.
  change (reverse ["."%char]) with ["."%char]. cbn [app].
  rewrite Hfield, scan_plain by done.
  by rewrite reverse_involutive.
Qed.

End GoTemplateFacts.

(** C5, as amended.  [PackageListToTemplate] stops at the first package
    that does not parse or does not execute and returns that error;
    otherwise it returns the expansions in order.  An action left
    unclosed is a template-syntax error.  A placeholder [{{.key}}] whose
    key is absent from the parameter map is not an error: the expansion
    succeeds and puts the text [<no value>] in its place; a key that is
    present is replaced by its value. *)
Theorem C5_template_expansion (params : gmap string string)
    (prefix key suffix body : string) :
  plain prefix → identifier key → plain suffix → braceless body →
  PackageListToTemplate (H := GoTemplate.engine)
    [prefix +:+ "{{." +:+ key +:+ "}}" +:+ suffix] params =
    inr [prefix +:+ default "<no value>" (params !! key) +:+ suffix] ∧
  PackageListToTemplate (H := GoTemplate.engine)
    [prefix +:+ "{{" +:+ body] params = inl GoTemplate.TemplateSyntaxError ∧
  (∀ (engine : TemplateEngine) packages,
     match PackageListToTemplate packages params with
     | inr out => Forall2 (expandsTo params) packages out
     | inl err =>
         ∃ before pkg after rs,
           packages = before ++ pkg :: after ∧
           Forall2 (expandsTo params) before rs ∧
           stopsWith params pkg err
     end).
Proof.
  intros Hprefix Hkey Hsuffix Hbody. repeat split.
  - unfold PackageListToTemplate, expandFrom.
    change (@Parse GoTemplate.engine) with GoTemplate.Parse.
    rewrite Parse_placeholder by done.
    change (@Execute GoTemplate.engine) with GoTemplate.Execute.
    unfold GoTemplate.Execute. simpl. do 2 f_equal.
    rewrite fmap_app, foldr_append_app, fmap_cons. simpl.
    by rewrite !value_text, !string_of_list_ascii_of_string.
  - unfold PackageListToTemplate, expandFrom.
    change (@Parse GoTemplate.engine) with GoTemplate.Parse.
    unfold GoTemplate.Parse, plain, braceless in *.
    rewrite !list_ascii_of_string_app, scan_text_run by done.
    change (list_ascii_of_string "{{") with ["{"; "{"]%char.
    cbn [app]. by rewrite scan_open, scan_unclosed.
  - intros engine packages. unfold PackageListToTemplate.
    destruct (expandFrom packages params []) as [err|out] eqn:Hrun.
    + by apply expandFrom_inl in Hrun.
    + by apply expandFrom_inr in Hrun as (rs & -> & Hall).
Qed.

Lemma C5_template_expansion_witness :
  plain "linux-image-generic-hwe-" ∧ identifier "version" ∧ plain "" ∧
  braceless ".version" ∧
  PackageListToTemplate (H := GoTemplate.engine)
    ["linux-image-generic-hwe-" +:+ "{{." +:+ "version" +:+ "}}" +:+ ""]
    {[ "version" := "24.04" ]} =
    inr ["linux-image-generic-hwe-" +:+
         default "<no value>"
           (({[ "version" := "24.04" ]} : gmap string string) !! "version")
         +:+ ""].
Proof.
  assert (Hprefix : plain "linux-image-generic-hwe-").
  { apply (bool_decide_unpack _). vm_compute. exact I. }
  assert (Hkey : identifier "version") by reflexivity.
  assert (Hsuffix : plain "").
  { apply (bool_decide_unpack _). vm_compute. exact I. }
  assert (Hbody : braceless ".version").
  { apply (bool_decide_unpack _). vm_compute. exact I. }
  repeat (split; [assumption|]).
  exact (proj1 (C5_template_expansion {[ "version" := "24.04" ]}
                  "linux-image-generic-hwe-" "version" "" ".version"
                  Hprefix Hkey Hsuffix Hbody)).
Defined.

(** The kernel package of the catalogs, expanded with no parameter: the
    call succeeds and the name carries [<no value>]. *)
Lemma C5_counterexample :
  PackageListToTemplate (H := GoTemplate.engine)
    ["linux-image-generic-hwe-{{.version}}"] ∅ =
  inr ["linux-image-generic-hwe-<no value>"].
Proof. reflexivity. Qed.

(** ** Where the packages of a result come from *)

Section Origin.
Context `{Semver}.

Lemma Values_ranged_entry g tb s (m : VersionMap) c values :
  m ∈ Values.filteredPackages g tb s → m !! c = Some values →
  (c, values) ∈
    entriesOf (Values.gBasePackages g) ++
    entriesOf (Values.gKernelPackages g) ++
    entriesOf (Values.gSystemdPackages g) ++
    entriesOf (Values.gGrubPackages g) ++
    entriesOf (Values.gImmucorePackages g).
Proof.
  intros Hm Hc. unfold Values.filteredPackages in Hm.
  apply list_elem_of_In in Hm.
  destruct tb; simpl in Hm;
    repeat (destruct Hm as [<-|Hm];
            [apply elem_of_entriesOf in Hc; rewrite !elem_of_app; tauto|]);
    destruct Hm.
Qed.

(** A package of the result is one of [CommonPackages] or stands in an
    entry of a catalog whose key matches. *)
Lemma Values_origin g tb order s v out p :
  admissible order → NewVersion (sVersion s) = Some v →
  Values.GetPackages g tb order s = Ok out → p ∈ out →
  p ∈ Values.gCommonPackages g ∨
  ∃ c values,
    (c, values) ∈
      entriesOf (Values.gBasePackages g) ++
      entriesOf (Values.gKernelPackages g) ++
      entriesOf (Values.gSystemdPackages g) ++
      entriesOf (Values.gGrubPackages g) ++
      entriesOf (Values.gImmucorePackages g) ∧
    matches v c = true ∧ p ∈ values.
Proof.
  intros Hadm Hv. unfold Values.GetPackages. rewrite Hv.
  intros [= <-]. rewrite rangeAll_selected.
  intros [Hp|Hp]%elem_of_app; [by left|right].
  change (p ∈ [] ++ (visited order 0 (Values.filteredPackages g tb s)
                       ≫= selected v)) in Hp.
  rewrite <- rangeAll_selected in Hp.
  apply elem_of_rangeAll in Hp as (m & c & values & Hm & Hc & Hp & Hmatch);
    [|done].
  exists c, values. split; [|done]. by eapply Values_ranged_entry.
Qed.

End Origin.

(** ** The constraint [>=20.04, != 24.10] *)

(** C6.  The constraint [>=20.04, != 24.10] parses, matches version
    24.04 and does not match version 24.10.  For an Ubuntu amd64 system
    at version 24.10, of whatever family, in either boot mode and for
    every order of visit, the resolver of [pkg/values/packagemaps.go]
    returns a list that has the package keyed [24.10] in the kernel
    catalog and not the package keyed [>=20.04, != 24.10]. *)
Theorem C6_negated_exclusion (order : Order) (family : Family)
    (TrustedBoot : bool) :
  admissible order →
  NewVersion (Semver := GoVersion.semver) "24.04" = Some [24; 4; 0]%Z ∧
  NewVersion (Semver := GoVersion.semver) "24.10" = Some [24; 10; 0]%Z ∧
  (∃ c, NewConstraint (Semver := GoVersion.semver) ">=20.04, != 24.10" = Some c ∧
        Check (Semver := GoVersion.semver) c [24; 4; 0]%Z = true ∧
        Check (Semver := GoVersion.semver) c [24; 10; 0]%Z = false) ∧
  index Values.KernelPackages Ubuntu ArchAMD64 !! "24.10" =
    Some ["linux-image-generic-hwe-24.04"] ∧
  index Values.KernelPackages Ubuntu ArchAMD64 !! ">=20.04, != 24.10" =
    Some ["linux-image-generic-hwe-{{.version}}"] ∧
  ∃ out,
    Values.GetPackages (H := GoVersion.semver) Values.initial TrustedBoot order
      (mkSystem Ubuntu family ArchAMD64 "24.10") = Ok out ∧
    "linux-image-generic-hwe-24.04" ∈ out ∧
    "linux-image-generic-hwe-{{.version}}" ∉ out.
Proof.
  intros Hadm.
  split; [reflexivity|]. split; [reflexivity|].
  split; [eexists; by vm_compute|].
  split; [reflexivity|]. split; [reflexivity|].
  exists (rangeAll (H := GoVersion.semver) order 0 [24; 10; 0]%Z
            (Values.filteredPackages Values.initial TrustedBoot
               (mkSystem Ubuntu family ArchAMD64 "24.10"))
            Values.CommonPackages).
  split; [reflexivity|]. split.
  - assert (Hin : index Values.KernelPackages Ubuntu ArchAMD64 ∈
                  Values.filteredPackages Values.initial TrustedBoot
                    (mkSystem Ubuntu family ArchAMD64 "24.10")).
    { unfold Values.filteredPackages. destruct TrustedBoot; here_or_further. }
    destruct (visited_block (H := GoVersion.semver) order 0 [24; 10; 0]%Z
                (Values.filteredPackages Values.initial TrustedBoot
                   (mkSystem Ubuntu family ArchAMD64 "24.10"))
                Values.CommonPackages "24.10"
                ["linux-image-generic-hwe-24.04"])
      as (before & after & Hout).
    + eapply elem_of_visited; [done|exact Hin|reflexivity].
    + reflexivity.
    + rewrite Hout. apply elem_of_app. right. apply elem_of_app. left.
      by apply list_elem_of_here.
  - intros Hp.
    apply (Values_origin (H := GoVersion.semver) Values.initial TrustedBoot
             order (mkSystem Ubuntu family ArchAMD64 "24.10") [24; 10; 0]%Z
             _ _ Hadm eq_refl eq_refl) in Hp.
    destruct Hp as [Hp|(c & values & Hentry & Hmatch & Hp)].
    + revert Hp. apply (bool_decide_unpack _). by vm_compute.
    + revert c values Hentry Hmatch Hp.
      assert (Hall : Forall
                (λ e, matches (H := GoVersion.semver) [24; 10; 0]%Z e.1 = true →
                      "linux-image-generic-hwe-{{.version}}" ∉ e.2)
                (entriesOf (Values.gBasePackages Values.initial) ++
                 entriesOf (Values.gKernelPackages Values.initial) ++
                 entriesOf (Values.gSystemdPackages Values.initial) ++
                 entriesOf (Values.gGrubPackages Values.initial) ++
                 entriesOf (Values.gImmucorePackages Values.initial))).
      { apply (bool_decide_unpack _). by vm_compute. }
      intros c values Hentry Hmatch Hp.
      rewrite Forall_forall in Hall. by apply (Hall _ Hentry).
Qed.

Lemma C6_negated_exclusion_witness :
  admissible descending ∧
  ∃ out,
    Values.GetPackages (H := GoVersion.semver) Values.initial false descending
      (mkSystem Ubuntu DebianFamily ArchAMD64 "24.10") = Ok out ∧
    "linux-image-generic-hwe-24.04" ∈ out ∧
    "linux-image-generic-hwe-{{.version}}" ∉ out.
Proof.
  split; [intros i m; apply reverse_Permutation|].
  refine (proj2 (proj2 (proj2 (proj2 (proj2
    (C6_negated_exclusion descending DebianFamily false _)))))).
  intros i m. apply reverse_Permutation.
Defined.

(** ** Entries keyed [Common] *)

(** C7.  For a [Version] that parses, the package list of every entry
    keyed [Common] that a catalog read in the mode has under the distro
    or the family of the system, and under [ArchCommon] or its
    architecture, stands in the result, whole and in declaration order,
    whatever the version is. *)
Theorem C7_common_entries_included `{Semver} (gV : Values.Globals)
    (gD : DockerfileValues.Globals) (TrustedBoot : bool) (order : Order)
    (s : System) (v : SemverVersion) (pm : PackageMap)
    (k : DistroFamilyInterface) (a : Architecture) (values : list string) :
  NewVersion (sVersion s) = Some v → admissible order →
  k ∈ [OfDistro (sDistro s); OfFamily (sFamily s)] →
  a ∈ [ArchCommon; sArch s] →
  index pm k a !! Common = Some values →
  (pm ∈ Values_catalogs gV TrustedBoot →
   ∃ out before after,
     Values.GetPackages gV TrustedBoot order s = Ok out ∧
     out = before ++ values ++ after) ∧
  (pm ∈ DockerfileValues_catalogs gD TrustedBoot →
   ∃ out before after,
     DockerfileValues.GetPackages gD TrustedBoot order s = Ok out ∧
     out = before ++ values ++ after).
Proof.
  intros Hv Hadm Hk Ha Hm.
  assert (Hmatch : matches v Common = true).
  { unfold matches. by rewrite decide_True. }
  unfold Values.GetPackages, DockerfileValues.GetPackages,
    DockerfileValues.FilterPackagesOnConstraint.
  rewrite Hv. split; intros Hpm.
  - assert (Hin : index pm k a ∈ Values.filteredPackages gV TrustedBoot s).
    { apply Values_ranged_axes. by exists pm, k, a. }
    destruct (visited_block order 0 v (Values.filteredPackages gV TrustedBoot s)
                (Values.gCommonPackages gV) Common values)
      as (before & after & Hout); [by eapply elem_of_visited|done|].
    by eexists _, before, after.
  - assert (Hin : index pm k a ∈
                  DockerfileValues.filteredPackages gD TrustedBoot s).
    { apply DockerfileValues_ranged_axes. by exists pm, k, a. }
    destruct (visited_block order 0 v
                (DockerfileValues.filteredPackages gD TrustedBoot s)
                [] Common values)
      as (before & after & Hout); [by eapply elem_of_visited|done|].
    eexists _, (DockerfileValues.gCommonPackages gD ++ before), after.
    split; [done|]. simpl. rewrite Hout. by rewrite <- app_assoc.
Qed.

Lemma C7_common_entries_included_witness :
  NewVersion (Semver := GoVersion.semver) "41" = Some [41; 0; 0]%Z ∧
  admissible ascending ∧
  OfDistro Fedora ∈ [OfDistro Fedora; OfFamily RedHatFamily] ∧
  ArchCommon ∈ [ArchCommon; ArchARM64] ∧
  index Values.BasePackages Fedora ArchCommon !! Common =
    Some ["haveged"; "systemd-networkd"] ∧
  Values.BasePackages ∈ Values_catalogs Values.initial true ∧
  ∃ out before after,
    Values.GetPackages (H := GoVersion.semver) Values.initial true ascending
      (mkSystem Fedora RedHatFamily ArchARM64 "41") = Ok out ∧
    out = before ++ ["haveged"; "systemd-networkd"] ++ after.
Proof.
  assert (Hk : OfDistro Fedora ∈ [OfDistro Fedora; OfFamily RedHatFamily]).
  { apply list_elem_of_In. simpl. left. reflexivity. }
  assert (Ha : ArchCommon ∈ [ArchCommon; ArchARM64]).
  { apply list_elem_of_In. simpl. left. reflexivity. }
  assert (Hpm : Values.BasePackages ∈ Values_catalogs Values.initial true).
  { apply list_elem_of_In. simpl. left. reflexivity. }
  split; [reflexivity|]. split; [intros i m; reflexivity|].
  split; [exact Hk|]. split; [exact Ha|]. split; [reflexivity|].
  split; [exact Hpm|].
  refine (proj1 (C7_common_entries_included (H := GoVersion.semver)
                   Values.initial DockerfileValues.initial true ascending
                   (mkSystem Fedora RedHatFamily ArchARM64 "41") [41; 0; 0]%Z
                   Values.BasePackages (OfDistro Fedora) ArchCommon
                   ["haveged"; "systemd-networkd"] _ _ Hk Ha _) Hpm).
  - reflexivity.
  - intros i m. reflexivity.
  - reflexivity.
Defined.

(** ** Constraints that do not parse *)

Section MalformedFacts.
Context `{Semver}.

Lemma bind_selected_wellformed v (es : list (string * list string)) :
  filter (λ e, malformed e.1 = false) es ≫= selected v = es ≫= selected v.
Proof.
  induction es as [|e es IH]; [done|].
  rewrite filter_cons. destruct (decide (malformed e.1 = false)) as [Hw|Hm].
  - by rewrite !bind_cons, IH.
  - rewrite bind_cons, IH, selected_malformed; [done|].
    by destruct (malformed e.1).
Qed.

Lemma visit_malformed v pkgs c values :
  malformed c = true → visit v pkgs (c, values) = pkgs.
Proof.
  intros Hm. rewrite visit_selected, selected_malformed by done.
  by rewrite app_nil_r.
Qed.

End MalformedFacts.

(** C8.  For a [Version] that parses the call never fails, and its
    result is the one the same walk gives once every entry whose key
    does not parse as a constraint is struck out: such an entry adds
    nothing and changes nothing for the entries around it, in its own
    map or in another. *)
Theorem C8_malformed_constraint_skipped `{Semver} (gV : Values.Globals)
    (gD : DockerfileValues.Globals) (TrustedBoot : bool) (order : Order)
    (s : System) (v : SemverVersion) :
  NewVersion (sVersion s) = Some v →
  Values.GetPackages gV TrustedBoot order s =
    Ok (foldl (visit v) (Values.gCommonPackages gV)
          (filter (λ e, malformed e.1 = false)
             (visited order 0 (Values.filteredPackages gV TrustedBoot s)))) ∧
  DockerfileValues.GetPackages gD TrustedBoot order s =
    Ok (DockerfileValues.gCommonPackages gD ++
        foldl (visit v) []
          (filter (λ e, malformed e.1 = false)
             (visited order 0
                (DockerfileValues.filteredPackages gD TrustedBoot s)))) ∧
  (∀ pkgs c values, malformed c = true → visit v pkgs (c, values) = pkgs).
Proof.
  intros Hv.
  unfold Values.GetPackages, DockerfileValues.GetPackages,
    DockerfileValues.FilterPackagesOnConstraint.
  rewrite Hv, !rangeAll_selected, !foldl_visit, !bind_selected_wellformed.
  repeat split. intros pkgs c values. apply visit_malformed.
Qed.

Lemma C8_malformed_constraint_skipped_witness :
  NewVersion (Semver := GoVersion.semver) "12" = Some [12; 0; 0]%Z ∧
  malformed (H := GoVersion.semver) "bookworm" = true ∧
  Values.GetPackages (H := GoVersion.semver) Values.initial false ascending
    (mkSystem Debian DebianFamily ArchAMD64 "12") =
  Ok (foldl (visit (H := GoVersion.semver) [12; 0; 0]%Z) Values.CommonPackages
        (filter (λ e, malformed (H := GoVersion.semver) e.1 = false)
           (visited ascending 0
              (Values.filteredPackages Values.initial false
                 (mkSystem Debian DebianFamily ArchAMD64 "12"))))).
Proof.
  split; [reflexivity|]. split; [reflexivity|].
  refine (proj1 (C8_malformed_constraint_skipped (H := GoVersion.semver)
                   Values.initial DockerfileValues.initial false ascending
                   (mkSystem Debian DebianFamily ArchAMD64 "12")
                   [12; 0; 0]%Z _)).
  reflexivity.
Defined.

(** ** Axis combinations a catalog lacks *)

(** C9.  When the selector is absent from a catalog, or the architecture
    is absent under the selector, the lookup gives the empty map, the
    loop over it leaves the list as it is, and nothing fails: the text
    in [src/Dockerfile] always returns a list, and
    [pkg/values/packagemaps.go] does so for every [Version] that
    parses. *)
Theorem C9_missing_axis `{Semver} (pm : PackageMap) (k : DistroFamilyInterface)
    (a : Architecture) (order : Order) :
  admissible order →
  pm !! k = None ∨ (∃ byArch, pm !! k = Some byArch ∧ byArch !! a = None) →
  index pm k a = ∅ ∧
  (∀ i v rest pkgs,
     rangeAll order i v (index pm k a :: rest) pkgs =
     rangeAll order (S i) v rest pkgs) ∧
  (∀ g tb s, ∃ out, DockerfileValues.GetPackages g tb order s = Ok out) ∧
  (∀ g tb s, is_Some (NewVersion (sVersion s)) →
             ∃ out, Values.GetPackages g tb order s = Ok out).
Proof.
  intros Hadm Hmissing.
  assert (Hempty : index pm k a = ∅).
  { unfold index. destruct Hmissing as [->|(byArch & -> & Ha)]; simpl.
    - by rewrite lookup_empty.
    - by rewrite Ha. }
  split; [done|]. split; [|split].
  - intros i v rest pkgs. simpl. rewrite Hempty.
    by rewrite admissible_empty.
  - intros g tb s. by eexists.
  - intros g tb s [v Hv]. unfold Values.GetPackages. rewrite Hv. by eexists.
Qed.

Lemma C9_missing_axis_witness :
  admissible ascending ∧
  Values.KernelPackages !! OfDistro Fedora = None ∧
  index Values.KernelPackages Fedora ArchARM64 = ∅ ∧
  ∃ out,
    Values.GetPackages (H := GoVersion.semver) Values.initial false ascending
      (mkSystem Fedora (OtherFamily "unknown") ArchARM64 "41") = Ok out.
Proof.
  split; [intros i m; reflexivity|]. split; [reflexivity|].
  destruct (C9_missing_axis (H := GoVersion.semver) Values.KernelPackages
              Fedora ArchARM64 ascending) as (Hempty & _ & _ & Hok).
  - intros i m. reflexivity.
  - left. reflexivity.
  - split; [exact Hempty|].
    apply (Hok Values.initial false
             (mkSystem Fedora (OtherFamily "unknown") ArchARM64 "41")).
    exists [41; 0; 0]%Z. reflexivity.
Defined.

(** ** A system whose architecture is [ArchCommon] *)

Section TwiceFacts.
Context `{Semver}.

(** A list made of blocks [x; y; x; y] has each of its members at two
    places. *)
Lemma blocks_twice {A} (blocks : list (A * A)) (m : A) :
  m ∈ (blocks ≫= λ b, [b.1; b.2; b.1; b.2]) →
  ∃ l0 l1 l2, (blocks ≫= λ b, [b.1; b.2; b.1; b.2]) = l0 ++ m :: l1 ++ m :: l2.
Proof.
  induction blocks as [|[x y] blocks IH]; [by intros ?%elem_of_nil|].
  rewrite bind_cons. cbn [fst snd]. intros Hin.
  apply elem_of_app in Hin as [Hin|Hin].
  - apply elem_of_cons in Hin as [->|Hin]; [exists [], [y]; eexists; reflexivity|].
    apply elem_of_cons in Hin as [->|Hin]; [exists [x], [x]; eexists; reflexivity|].
    apply elem_of_cons in Hin as [->|Hin]; [exists [], [y]; eexists; reflexivity|].
    apply elem_of_cons in Hin as [->|Hin]; [exists [x], [x]; eexists; reflexivity|].
    by apply elem_of_nil in Hin.
  - destruct (IH Hin) as (l0 & l1 & l2 & ->).
    by exists (x :: y :: x :: y :: l0), l1, l2.
Qed.

Lemma visited_entry order i (l0 rest : list VersionMap) (m : VersionMap)
    c values :
  admissible order → m !! c = Some values →
  ∃ a b,
    visited order i (l0 ++ m :: rest) =
    a ++ (c, values) :: b ++ visited order (S (i + length l0)) rest.
Proof.
  intros Hadm Hm. rewrite visited_app. cbn [visited].
  destruct (list_elem_of_split _ _
              (admissible_lookup order (i + length l0) m c values Hadm Hm))
    as (a1 & a2 & ->).
  exists (visited order i l0 ++ a1), a2.
  by rewrite <- !app_assoc.
Qed.

Lemma ranged_twice order v (maps l0 l1 l2 : list VersionMap) pkgs
    (m : VersionMap) c values :
  admissible order → maps = l0 ++ m :: l1 ++ m :: l2 →
  m !! c = Some values → matches v c = true →
  ∃ x y z, rangeAll order 0 v maps pkgs = x ++ values ++ y ++ values ++ z.
Proof.
  intros Hadm -> Hm Hmatch. rewrite rangeAll_selected.
  destruct (visited_entry order 0 l0 (l1 ++ m :: l2) m c values Hadm Hm)
    as (a1 & a2 & ->).
  destruct (visited_entry order (S (0 + length l0)) l1 l2 m c values Hadm Hm)
    as (b1 & b2 & ->).
  rewrite !bind_app, !bind_cons, !bind_app, !bind_cons.
  rewrite !(selected_matches _ _ _ Hmatch).
  exists (pkgs ++ (a1 ≫= selected v)),
    ((a2 ≫= selected v) ++ (b1 ≫= selected v)),
    ((b2 ≫= selected v) ++
     (visited order (S (S (0 + length l0) + length l1)) l2 ≫= selected v)).
  by rewrite <- !app_assoc, bind_app.
Qed.

End TwiceFacts.

(** C10.  When the [Arch] of the system is [ArchCommon], the lookup
    under the architecture of the system is the lookup under
    [ArchCommon]; so for every catalog read in the mode, under the
    distro and under the family, the packages of each any-architecture
    entry whose key matches stand twice in the result. *)
Theorem C10_any_arch_duplicated `{Semver} (gV : Values.Globals)
    (gD : DockerfileValues.Globals) (TrustedBoot : bool) (order : Order)
    (s : System) (v : SemverVersion) (pm : PackageMap)
    (k : DistroFamilyInterface) (c : string) (values : list string) :
  sArch s = ArchCommon → NewVersion (sVersion s) = Some v →
  admissible order →
  k ∈ [OfDistro (sDistro s); OfFamily (sFamily s)] →
  index pm k ArchCommon !! c = Some values → matches v c = true →
  index pm k (sArch s) = index pm k ArchCommon ∧
  (pm ∈ Values_catalogs gV TrustedBoot →
   ∃ out x y z,
     Values.GetPackages gV TrustedBoot order s = Ok out ∧
     out = x ++ values ++ y ++ values ++ z) ∧
  (pm ∈ DockerfileValues_catalogs gD TrustedBoot →
   ∃ out x y z,
     DockerfileValues.GetPackages gD TrustedBoot order s = Ok out ∧
     out = x ++ values ++ y ++ values ++ z).
Proof.
  intros Harch Hv Hadm Hk Hm Hmatch.
  split; [by rewrite Harch|].
  assert (Ha : ArchCommon ∈ [ArchCommon; sArch s]) by by left.
  set (m := index pm k ArchCommon) in *.
  unfold Values.GetPackages, DockerfileValues.GetPackages,
    DockerfileValues.FilterPackagesOnConstraint.
  rewrite Hv. split; intros Hpm.
  - assert (Hin : m ∈ Values.filteredPackages gV TrustedBoot s).
    { apply Values_ranged_axes. by exists pm, k, ArchCommon. }
    assert (∃ l0 l1 l2, Values.filteredPackages gV TrustedBoot s =
                        l0 ++ m :: l1 ++ m :: l2) as (l0 & l1 & l2 & Hsplit).
    { unfold Values.filteredPackages in *. rewrite Harch in *.
      destruct TrustedBoot.
      - exact (blocks_twice
          [(index (Values.gBasePackages gV) (sDistro s) ArchCommon,
            index (Values.gBasePackages gV) (sFamily s) ArchCommon);
           (index (Values.gKernelPackages gV) (sDistro s) ArchCommon,
            index (Values.gKernelPackages gV) (sFamily s) ArchCommon);
           (index (Values.gSystemdPackages gV) (sDistro s) ArchCommon,
            index (Values.gSystemdPackages gV) (sFamily s) ArchCommon)] m Hin).
      - exact (blocks_twice
          [(index (Values.gBasePackages gV) (sDistro s) ArchCommon,
            index (Values.gBasePackages gV) (sFamily s) ArchCommon);
           (index (Values.gKernelPackages gV) (sDistro s) ArchCommon,
            index (Values.gKernelPackages gV) (sFamily s) ArchCommon);
           (index (Values.gGrubPackages gV) (sDistro s) ArchCommon,
            index (Values.gGrubPackages gV) (sFamily s) ArchCommon);
           (index (Values.gImmucorePackages gV) (sDistro s) ArchCommon,
            index (Values.gImmucorePackages gV) (sFamily s) ArchCommon)] m Hin). }
    destruct (ranged_twice order v _ l0 l1 l2 (Values.gCommonPackages gV)
                m c values Hadm Hsplit Hm Hmatch) as (x & y & z & Hout).
    by eexists _, x, y, z.
  - assert (Hin : m ∈ DockerfileValues.filteredPackages gD TrustedBoot s).
    { apply DockerfileValues_ranged_axes. by exists pm, k, ArchCommon. }
    assert (∃ l0 l1 l2, DockerfileValues.filteredPackages gD TrustedBoot s =
                        l0 ++ m :: l1 ++ m :: l2) as (l0 & l1 & l2 & Hsplit).
    { unfold DockerfileValues.filteredPackages in *. rewrite Harch in *.
      destruct TrustedBoot.
      - exact (blocks_twice
          [(index (DockerfileValues.gBasePackages gD) (sDistro s) ArchCommon,
            index (DockerfileValues.gBasePackages gD) (sFamily s) ArchCommon);
           (index (DockerfileValues.gKernelPackagesTrustedBoot gD)
              (sDistro s) ArchCommon,
            index (DockerfileValues.gKernelPackagesTrustedBoot gD)
              (sFamily s) ArchCommon);
           (index (DockerfileValues.gSystemdPackages gD) (sDistro s) ArchCommon,
            index (DockerfileValues.gSystemdPackages gD) (sFamily s) ArchCommon)]
          m Hin).
      - exact (blocks_twice
          [(index (DockerfileValues.gBasePackages gD) (sDistro s) ArchCommon,
            index (DockerfileValues.gBasePackages gD) (sFamily s) ArchCommon);
           (index (DockerfileValues.gKernelPackages gD) (sDistro s) ArchCommon,
            index (DockerfileValues.gKernelPackages gD) (sFamily s) ArchCommon);
           (index (DockerfileValues.gGrubPackages gD) (sDistro s) ArchCommon,
            index (DockerfileValues.gGrubPackages gD) (sFamily s) ArchCommon);
           (index (DockerfileValues.gImmucorePackages gD) (sDistro s) ArchCommon,
            index (DockerfileValues.gImmucorePackages gD) (sFamily s) ArchCommon)]
          m Hin). }
    destruct (ranged_twice order v _ l0 l1 l2 [] m c values Hadm Hsplit
                Hm Hmatch) as (x & y & z & Hout).
    eexists _, (DockerfileValues.gCommonPackages gD ++ x), y, z.
    split; [done|]. simpl. rewrite Hout. by rewrite <- !app_assoc.
Qed.

Lemma C10_any_arch_duplicated_witness :
  NewVersion (Semver := GoVersion.semver) "41" = Some [41; 0; 0]%Z ∧
  admissible descending ∧
  OfDistro Fedora ∈ [OfDistro Fedora; OfFamily RedHatFamily] ∧
  index Values.BasePackages Fedora ArchCommon !! Common =
    Some ["haveged"; "systemd-networkd"] ∧
  Values.BasePackages ∈ Values_catalogs Values.initial false ∧
  ∃ out x y z,
    Values.GetPackages (H := GoVersion.semver) Values.initial false descending
      (mkSystem Fedora RedHatFamily ArchCommon "41") = Ok out ∧
    out = x ++ ["haveged"; "systemd-networkd"] ++ y ++
          ["haveged"; "systemd-networkd"] ++ z.
Proof.
  assert (Hk : OfDistro Fedora ∈ [OfDistro Fedora; OfFamily RedHatFamily]).
  { apply list_elem_of_In. simpl. left. reflexivity. }
  assert (Hpm : Values.BasePackages ∈ Values_catalogs Values.initial false).
  { apply list_elem_of_In. simpl. left. reflexivity. }
  split; [reflexivity|].
  split; [intros i m; apply reverse_Permutation|].
  split; [exact Hk|]. split; [reflexivity|]. split; [exact Hpm|].
  refine (proj1 (proj2 (C10_any_arch_duplicated (H := GoVersion.semver)
                   Values.initial DockerfileValues.initial false descending
                   (mkSystem Fedora RedHatFamily ArchCommon "41") [41; 0; 0]%Z
                   Values.BasePackages (OfDistro Fedora) Common
                   ["haveged"; "systemd-networkd"] _ _ _ Hk _ _)) Hpm).
  - reflexivity.
  - reflexivity.
  - intros i m. apply reverse_Permutation.
  - reflexivity.
  - reflexivity.
Defined.

(** * Further properties of the resolver *)


Section Rows.

Lemma elem_of_rowsOf (pm : PackageMap) k a c values :
  index pm k a !! c = Some values → (k, a, c, values) ∈ rowsOf pm.
Proof.
  unfold index, rowsOf. intros Hm.
  destruct (pm !! k) as [am|] eqn:Hk; simpl in Hm;
    [|by rewrite lookup_empty in Hm].
  destruct (am !! a) as [vm|] eqn:Ha; simpl in Hm;
    [|by rewrite lookup_empty in Hm].
  apply list_elem_of_bind. exists (k, am).
  split; [|by apply elem_of_map_to_list].
  apply list_elem_of_bind. exists (a, vm).
  split; [|by apply elem_of_map_to_list].
  apply list_elem_of_fmap. exists (c, values).
  split; [done|by apply elem_of_map_to_list].
Qed.

End Rows.

Section ResultMembership.
Context `{Semver}.

Lemma Values_result_iff g tb order s v out p :
  admissible order → NewVersion (sVersion s) = Some v →
  Values.GetPackages g tb order s = Ok out →
  p ∈ out ↔
  p ∈ Values.gCommonPackages g ∨
  ∃ pm, pm ∈ Values_catalogs g tb ∧ listedFor v pm s p.
Proof.
  intros Hadm Hv. unfold Values.GetPackages. rewrite Hv. intros [= <-].
  rewrite elem_of_rangeAll_iff by done. apply or_iff_compat_l. split.
  - intros (m & c & values & Hm & Hc & Hp & Hmatch).
    apply Values_ranged_axes in Hm as (pm & k & a & Hpm & Hk & Ha & ->).
    exists pm. split; [done|]. by exists k, a, c, values.
  - intros (pm & Hpm & k & a & c & values & Hk & Ha & Hc & Hmatch & Hp).
    exists (index pm k a), c, values. repeat split; try done.
    apply Values_ranged_axes. by exists pm, k, a.
Qed.

Lemma DockerfileValues_result_iff g tb order s v out p :
  admissible order → NewVersion (sVersion s) = Some v →
  DockerfileValues.GetPackages g tb order s = Ok out →
  p ∈ out ↔
  p ∈ DockerfileValues.gCommonPackages g ∨
  ∃ pm, pm ∈ DockerfileValues_catalogs g tb ∧ listedFor v pm s p.
Proof.
  intros Hadm Hv. unfold DockerfileValues.GetPackages,
    DockerfileValues.FilterPackagesOnConstraint.
  rewrite Hv. intros [= <-].
  rewrite elem_of_app, elem_of_rangeAll_iff by done.
  apply or_iff_compat_l. split.
  - intros [[]%elem_of_nil|(m & c & values & Hm & Hc & Hp & Hmatch)].
    apply DockerfileValues_ranged_axes in Hm
      as (pm & k & a & Hpm & Hk & Ha & ->).
    exists pm. split; [done|]. by exists k, a, c, values.
  - intros (pm & Hpm & k & a & c & values & Hk & Ha & Hc & Hmatch & Hp).
    right. exists (index pm k a), c, values. repeat split; try done.
    apply DockerfileValues_ranged_axes. by exists pm, k, a.
Qed.

Lemma listed_under_one_architecture v s p a0 (catalogs : list PackageMap) :
  a0 ≠ ArchCommon → a0 ≠ sArch s →
  Forall (λ pm, Forall (λ row, p ∈ row.2 → row.1.1.2 = a0) (rowsOf pm))
    catalogs →
  ∀ pm, pm ∈ catalogs → ¬ listedFor v pm s p.
Proof.
  intros Hcommon Harch Hall pm Hpm
    (k & a & c & values & Hk & Ha & Hc & Hmatch & Hp).
  rewrite Forall_forall in Hall. specialize (Hall pm Hpm).
  rewrite Forall_forall in Hall.
  specialize (Hall _ (elem_of_rowsOf pm k a c values Hc) Hp).
  simpl in Hall. subst a0.
  apply list_elem_of_In in Ha. simpl in Ha.
  destruct Ha as [<-|[<-|[]]]; congruence.
Qed.

End ResultMembership.

(** X1.  What the result holds, exactly: for a [Version] that parses, a
    package is in the result if and only if it is one of
    [CommonPackages] or a catalog read in the mode lists it for the
    system, under the distro or the family, under [ArchCommon] or the
    architecture, and under a key that matches. *)
Theorem GetPackages_membership `{Semver} (gV : Values.Globals)
    (gD : DockerfileValues.Globals) (TrustedBoot : bool) (order : Order)
    (s : System) (v : SemverVersion) (p : string) :
  admissible order → NewVersion (sVersion s) = Some v →
  (∀ out, Values.GetPackages gV TrustedBoot order s = Ok out →
     (p ∈ out ↔
      p ∈ Values.gCommonPackages gV ∨
      ∃ pm, pm ∈ Values_catalogs gV TrustedBoot ∧ listedFor v pm s p)) ∧
  (∀ out, DockerfileValues.GetPackages gD TrustedBoot order s = Ok out →
     (p ∈ out ↔
      p ∈ DockerfileValues.gCommonPackages gD ∨
      ∃ pm, pm ∈ DockerfileValues_catalogs gD TrustedBoot ∧
            listedFor v pm s p)).
Proof.
  intros Hadm Hv. split; intros out Hout.
  - by apply (Values_result_iff gV TrustedBoot order s v).
  - by apply (DockerfileValues_result_iff gD TrustedBoot order s v).
Qed.

Lemma GetPackages_membership_witness :
  admissible ascending ∧
  NewVersion (Semver := GoVersion.semver) "22.04" = Some [22; 4; 0]%Z ∧
  ∀ out,
    Values.GetPackages (H := GoVersion.semver) Values.initial false ascending
      (mkSystem Ubuntu DebianFamily ArchAMD64 "22.04") = Ok out →
    ("dracut-live" ∈ out ↔
     "dracut-live" ∈ Values.CommonPackages ∨
     ∃ pm, pm ∈ Values_catalogs Values.initial false ∧
           listedFor (H := GoVersion.semver) [22; 4; 0]%Z pm
             (mkSystem Ubuntu DebianFamily ArchAMD64 "22.04") "dracut-live").
Proof.
  split; [intros i m; reflexivity|]. split; [reflexivity|].
  refine (proj1 (GetPackages_membership (H := GoVersion.semver) Values.initial
                   DockerfileValues.initial false ascending
                   (mkSystem Ubuntu DebianFamily ArchAMD64 "22.04")
                   [22; 4; 0]%Z "dracut-live" _ _)).
  - intros i m. reflexivity.
  - reflexivity.
Defined.


(** X2.  Architecture isolation: a package that is not one of
    [CommonPackages] and that the catalogs read in the mode list only
    under one architecture, other than [ArchCommon], is in no result for
    a system of another architecture. *)
Theorem GetPackages_architecture_isolation `{Semver} (gV : Values.Globals)
    (gD : DockerfileValues.Globals) (TrustedBoot : bool) (order : Order)
    (s : System) (v : SemverVersion) (p : string) (a0 : Architecture) :
  admissible order → NewVersion (sVersion s) = Some v →
  a0 ≠ ArchCommon → a0 ≠ sArch s →
  (p ∉ Values.gCommonPackages gV →
   Forall (λ pm, Forall (λ row, p ∈ row.2 → row.1.1.2 = a0) (rowsOf pm))
     (Values_catalogs gV TrustedBoot) →
   ∀ out, Values.GetPackages gV TrustedBoot order s = Ok out → p ∉ out) ∧
  (p ∉ DockerfileValues.gCommonPackages gD →
   Forall (λ pm, Forall (λ row, p ∈ row.2 → row.1.1.2 = a0) (rowsOf pm))
     (DockerfileValues_catalogs gD TrustedBoot) →
   ∀ out, DockerfileValues.GetPackages gD TrustedBoot order s = Ok out →
          p ∉ out).
Proof.
  intros Hadm Hv Hcommon Harch. split; intros Hp Hall out Hout Hin.
  - apply (Values_result_iff gV TrustedBoot order s v out p Hadm Hv Hout)
      in Hin as [Hin|(pm & Hpm & Hlisted)]; [done|].
    by apply (listed_under_one_architecture v s p a0 _ Hcommon Harch Hall pm).
  - apply (DockerfileValues_result_iff gD TrustedBoot order s v out p
             Hadm Hv Hout) in Hin as [Hin|(pm & Hpm & Hlisted)]; [done|].
    by apply (listed_under_one_architecture v s p a0 _ Hcommon Harch Hall pm).
Qed.

Lemma GetPackages_architecture_isolation_witness :
  admissible ascending ∧
  NewVersion (Semver := GoVersion.semver) "12" = Some [12; 0; 0]%Z ∧
  ArchARM64 ≠ ArchCommon ∧ ArchARM64 ≠ ArchAMD64 ∧
  ("grub-efi-arm64" ∉ Values.CommonPackages) ∧
  Forall (λ pm, Forall (λ row, "grub-efi-arm64" ∈ row.2 → row.1.1.2 = ArchARM64)
                  (rowsOf pm))
    (Values_catalogs Values.initial false) ∧
  ∀ out,
    Values.GetPackages (H := GoVersion.semver) Values.initial false ascending
      (mkSystem Debian DebianFamily ArchAMD64 "12") = Ok out →
    "grub-efi-arm64" ∉ out.
Proof.
  assert (Hcommon : "grub-efi-arm64" ∉ Values.CommonPackages).
  { apply (bool_decide_unpack _). vm_compute. exact I. }
  assert (Hrows : Forall (λ pm,
                    Forall (λ row, "grub-efi-arm64" ∈ row.2 →
                                   row.1.1.2 = ArchARM64) (rowsOf pm))
                    (Values_catalogs Values.initial false)).
  { apply (bool_decide_unpack _). vm_compute. exact I. }
  split; [intros i m; reflexivity|]. split; [reflexivity|].
  split; [discriminate|]. split; [discriminate|].
  split; [exact Hcommon|]. split; [exact Hrows|].
  refine (proj1 (GetPackages_architecture_isolation (H := GoVersion.semver)
                   Values.initial DockerfileValues.initial false ascending
                   (mkSystem Debian DebianFamily ArchAMD64 "12") [12; 0; 0]%Z
                   "grub-efi-arm64" ArchARM64 _ _ _ _) Hcommon Hrows).
  - intros i m. reflexivity.
  - reflexivity.
  - discriminate.
  - discriminate.
Defined.

Section Multiset.
Context `{Semver}.

(** The walk over the maps in the order [map_to_list] gives. *)
Lemma visited_ascending i (maps : list VersionMap) :
  visited ascending i maps = maps ≫= map_to_list.
Proof.
  revert i. induction maps as [|m maps IH]; intros i; [done|].
  simpl. by rewrite IH.
Qed.

Lemma rangeAll_Permutation order i v (maps : list VersionMap) pkgs :
  admissible order →
  rangeAll order i v maps pkgs ≡ₚ
  pkgs ++ (maps ≫= λ m, map_to_list m ≫= selected v).
Proof.
  intros Hadm. rewrite rangeAll_selected. apply Permutation_app_head.
  rewrite (visited_Permutation order ascending i 0 maps Hadm
             ascending_admissible).
  rewrite visited_ascending.
  induction maps as [|m maps IH]; [done|].
  by rewrite !bind_cons, bind_app, IH.
Qed.

End Multiset.

(** X3.  Nothing is dropped and nothing is merged: for a [Version] that
    parses, the result is, up to the order of visit, [CommonPackages]
    followed by the packages of every matching entry of every map looked
    up, each as many times as it is listed. *)
Theorem GetPackages_multiset `{Semver} (gV : Values.Globals)
    (gD : DockerfileValues.Globals) (TrustedBoot : bool) (order : Order)
    (s : System) (v : SemverVersion) :
  admissible order → NewVersion (sVersion s) = Some v →
  (∃ out, Values.GetPackages gV TrustedBoot order s = Ok out ∧
     out ≡ₚ Values.gCommonPackages gV ++
            (Values.filteredPackages gV TrustedBoot s ≫= λ m,
               map_to_list m ≫= λ e, if matches v e.1 then e.2 else [])) ∧
  (∃ out, DockerfileValues.GetPackages gD TrustedBoot order s = Ok out ∧
     out ≡ₚ DockerfileValues.gCommonPackages gD ++
            (DockerfileValues.filteredPackages gD TrustedBoot s ≫= λ m,
               map_to_list m ≫= λ e, if matches v e.1 then e.2 else [])).
Proof.
  intros Hadm Hv.
  assert (Hsel : ∀ maps : list VersionMap,
            (maps ≫= λ m, map_to_list m ≫= selected v) =
            (maps ≫= λ m, map_to_list m ≫= λ e,
                            if matches v e.1 then e.2 else [])).
  { intros maps. apply list_bind_ext; [|done]. intros m.
    apply list_bind_ext; [|done]. intros e. apply selected_by_matches. }
  unfold Values.GetPackages, DockerfileValues.GetPackages,
    DockerfileValues.FilterPackagesOnConstraint.
  rewrite Hv. split; eexists; (split; [done|]); rewrite <- Hsel.
  - by apply rangeAll_Permutation.
  - apply Permutation_app_head.
    by rewrite (rangeAll_Permutation order 0 v _ []).
Qed.

Lemma GetPackages_multiset_witness :
  admissible descending ∧
  NewVersion (Semver := GoVersion.semver) "24.04" = Some [24; 4; 0]%Z ∧
  ∃ out,
    DockerfileValues.GetPackages (H := GoVersion.semver)
      DockerfileValues.initial true descending
      (mkSystem Ubuntu DebianFamily ArchAMD64 "24.04") = Ok out ∧
    out ≡ₚ DockerfileValues.CommonPackages ++
           (DockerfileValues.filteredPackages DockerfileValues.initial true
              (mkSystem Ubuntu DebianFamily ArchAMD64 "24.04") ≫= λ m,
              map_to_list m ≫= λ e,
                if matches (H := GoVersion.semver) [24; 4; 0]%Z e.1
                then e.2 else []).
Proof.
  split; [intros i m; apply reverse_Permutation|]. split; [reflexivity|].
  refine (proj2 (GetPackages_multiset (H := GoVersion.semver) Values.initial
                   DockerfileValues.initial true descending
                   (mkSystem Ubuntu DebianFamily ArchAMD64 "24.04")
                   [24; 4; 0]%Z _ _)).
  - intros i m. apply reverse_Permutation.
  - reflexivity.
Defined.


Section Determined.
Context `{Semver}.

(** Entries that do not match add nothing. *)
Lemma bind_selected_matching v (es : list (string * list string)) :
  es ≫= selected v = filter (λ e, matches v e.1 = true) es ≫= selected v.
Proof.
  induction es as [|e es IH]; [done|].
  rewrite filter_cons, bind_cons, IH.
  destruct (decide (matches v e.1 = true)) as [Hm|Hm].
  - by rewrite bind_cons.
  - rewrite selected_by_matches. by destruct (matches v e.1).
Qed.

Lemma Permutation_short {A} (l1 l2 : list A) :
  l1 ≡ₚ l2 → (length l1 ≤ 1)%nat → l1 = l2.
Proof.
  intros Hperm Hlen. destruct l1 as [|x [|y l1]]; simpl in Hlen; [| |lia].
  - by apply Permutation_nil_l.
  - by apply Permutation_singleton_l.
Qed.

Lemma visited_determined order1 order2 i v (maps : list VersionMap) :
  admissible order1 → admissible order2 →
  Forall (λ m, (length (filter (λ e, matches v e.1 = true) (map_to_list m)) ≤ 1)%nat)
    maps →
  visited order1 i maps ≫= selected v = visited order2 i maps ≫= selected v.
Proof.
  intros H1 H2 Hall. revert i.
  induction Hall as [|m maps Hm Hall IH]; intros i; [done|].
  simpl. rewrite !bind_app, IH. f_equal.
  rewrite (bind_selected_matching v (order1 i m)),
    (bind_selected_matching v (order2 i m)).
  f_equal. apply Permutation_short.
  - by rewrite (H1 i m), (H2 i m).
  - by rewrite (H1 i m).
Qed.

End Determined.

(** X4.  When the order of the result is fixed: if each map looked up
    has at most one entry whose key matches the version, any two calls
    return the same list, in the same order. *)
Theorem GetPackages_order_fixed `{Semver} (gV : Values.Globals)
    (gD : DockerfileValues.Globals) (TrustedBoot : bool)
    (order1 order2 : Order) (s : System) (v : SemverVersion) :
  admissible order1 → admissible order2 →
  NewVersion (sVersion s) = Some v →
  (Forall (λ m, (length (filter (λ e, matches v e.1 = true)
                           (map_to_list m)) ≤ 1)%nat)
     (Values.filteredPackages gV TrustedBoot s) →
   Values.GetPackages gV TrustedBoot order1 s =
   Values.GetPackages gV TrustedBoot order2 s) ∧
  (Forall (λ m, (length (filter (λ e, matches v e.1 = true)
                           (map_to_list m)) ≤ 1)%nat)
     (DockerfileValues.filteredPackages gD TrustedBoot s) →
   DockerfileValues.GetPackages gD TrustedBoot order1 s =
   DockerfileValues.GetPackages gD TrustedBoot order2 s).
Proof.
  intros H1 H2 Hv.
  unfold Values.GetPackages, DockerfileValues.GetPackages,
    DockerfileValues.FilterPackagesOnConstraint.
  rewrite Hv, !rangeAll_selected.
  split; intros Hall; by rewrite (visited_determined order1 order2 0 v _ H1 H2 Hall).
Qed.

Lemma GetPackages_order_fixed_witness :
  admissible ascending ∧ admissible descending ∧
  NewVersion (Semver := GoVersion.semver) "12" = Some [12; 0; 0]%Z ∧
  Forall (λ m, (length (filter (λ e, matches (H := GoVersion.semver)
                                       [12; 0; 0]%Z e.1 = true)
                          (map_to_list m)) ≤ 1)%nat)
    (DockerfileValues.filteredPackages DockerfileValues.initial false
       (mkSystem Debian DebianFamily ArchAMD64 "12")) ∧
  DockerfileValues.GetPackages (H := GoVersion.semver) DockerfileValues.initial
    false ascending (mkSystem Debian DebianFamily ArchAMD64 "12") =
  DockerfileValues.GetPackages (H := GoVersion.semver) DockerfileValues.initial
    false descending (mkSystem Debian DebianFamily ArchAMD64 "12").
Proof.
  assert (Hall : Forall (λ m, (length (filter (λ e, matches (H := GoVersion.semver)
                                                 [12; 0; 0]%Z e.1 = true)
                                    (map_to_list m)) ≤ 1)%nat)
                   (DockerfileValues.filteredPackages DockerfileValues.initial
                      false (mkSystem Debian DebianFamily ArchAMD64 "12"))).
  { apply (bool_decide_unpack _). vm_compute. exact I. }
  split; [intros i m; reflexivity|].
  split; [intros i m; apply reverse_Permutation|].
  split; [reflexivity|]. split; [exact Hall|].
  refine (proj2 (GetPackages_order_fixed (H := GoVersion.semver) Values.initial
                   DockerfileValues.initial false ascending descending
                   (mkSystem Debian DebianFamily ArchAMD64 "12") [12; 0; 0]%Z
                   _ _ _) Hall).
  - intros i m. reflexivity.
  - intros i m. apply reverse_Permutation.
  - reflexivity.
Defined.

Section ThroughMatching.
Context `{Semver}.




Lemma rangeAll_all_empty order i v (maps : list VersionMap) pkgs :
  admissible order → Forall (λ m, m = ∅) maps →
  rangeAll order i v maps pkgs = pkgs.
Proof.
  intros Hadm Hall. revert i.
  induction Hall as [|m maps -> Hall IH]; intros i; [done|].
  simpl. by rewrite admissible_empty, IH.
Qed.

Lemma index_absent (pm : PackageMap) k a : pm !! k = None → index pm k a = ∅.
Proof. unfold index. intros ->. simpl. by rewrite lookup_empty. Qed.

End ThroughMatching.



(** X6.  A system whose distro and family are keys of none of the
    catalogs read in the mode gets exactly [CommonPackages]: no error,
    nothing added, whatever its architecture and version. *)
Theorem GetPackages_unknown_selectors `{Semver} (gV : Values.Globals)
    (gD : DockerfileValues.Globals) (TrustedBoot : bool) (order : Order)
    (s : System) (v : SemverVersion) :
  admissible order → NewVersion (sVersion s) = Some v →
  (Forall (λ pm : PackageMap, pm !! OfDistro (sDistro s) = None ∧
                              pm !! OfFamily (sFamily s) = None)
     (Values_catalogs gV TrustedBoot) →
   Values.GetPackages gV TrustedBoot order s = Ok (Values.gCommonPackages gV)) ∧
  (Forall (λ pm : PackageMap, pm !! OfDistro (sDistro s) = None ∧
                              pm !! OfFamily (sFamily s) = None)
     (DockerfileValues_catalogs gD TrustedBoot) →
   DockerfileValues.GetPackages gD TrustedBoot order s =
   Ok (DockerfileValues.gCommonPackages gD)).
Proof.
  intros Hadm Hv.
  unfold Values.GetPackages, DockerfileValues.GetPackages,
    DockerfileValues.FilterPackagesOnConstraint.
  rewrite Hv. split; intros Hall.
  - rewrite rangeAll_all_empty; [done|done|].
    apply Forall_forall. intros m (pm & k & a & Hpm & Hk & _ & ->)%Values_ranged_axes.
    rewrite Forall_forall in Hall. destruct (Hall pm Hpm) as [Hd Hf].
    apply list_elem_of_In in Hk. simpl in Hk.
    destruct Hk as [<-|[<-|[]]]; by apply index_absent.
  - rewrite rangeAll_all_empty; [by rewrite app_nil_r|done|].
    apply Forall_forall.
    intros m (pm & k & a & Hpm & Hk & _ & ->)%DockerfileValues_ranged_axes.
    rewrite Forall_forall in Hall. destruct (Hall pm Hpm) as [Hd Hf].
    apply list_elem_of_In in Hk. simpl in Hk.
    destruct Hk as [<-|[<-|[]]]; by apply index_absent.
Qed.

Lemma GetPackages_unknown_selectors_witness :
  admissible ascending ∧
  NewVersion (Semver := GoVersion.semver) "2.17" = Some [2; 17; 0]%Z ∧
  Forall (λ pm : PackageMap,
            pm !! OfDistro (OtherDistro "gentoo") = None ∧
            pm !! OfFamily (OtherFamily "gentoo") = None)
    (DockerfileValues_catalogs DockerfileValues.initial true) ∧
  DockerfileValues.GetPackages (H := GoVersion.semver) DockerfileValues.initial
    true ascending
    (mkSystem (OtherDistro "gentoo") (OtherFamily "gentoo") ArchARM64 "2.17") =
  Ok DockerfileValues.CommonPackages.
Proof.
  assert (Hall : Forall (λ pm : PackageMap,
                    pm !! OfDistro (OtherDistro "gentoo") = None ∧
                    pm !! OfFamily (OtherFamily "gentoo") = None)
                   (DockerfileValues_catalogs DockerfileValues.initial true)).
  { repeat constructor. }
  split; [intros i m; reflexivity|]. split; [reflexivity|].
  split; [exact Hall|].
  refine (proj2 (GetPackages_unknown_selectors (H := GoVersion.semver)
                   Values.initial DockerfileValues.initial true ascending
                   (mkSystem (OtherDistro "gentoo") (OtherFamily "gentoo")
                      ArchARM64 "2.17") [2; 17; 0]%Z _ _) Hall).
  - intros i m. reflexivity.
  - reflexivity.
Defined.


(** * Further properties of the expansion *)

Section ExpansionComposes.
Context `{TemplateEngine}.

Lemma expandFrom_acc packages params acc :
  expandFrom packages params acc =
  match expandFrom packages params [] with
  | inl err => inl err
  | inr rs => inr (acc ++ rs)
  end.
Proof.
  revert acc. induction packages as [|pkg rest IH]; intros acc; simpl.
  - by rewrite app_nil_r.
  - destruct (Parse pkg) as [e|tmpl]; [done|].
    destruct (Execute tmpl params) as [e|r]; [done|].
    rewrite (IH (acc ++ [r])), (IH [r]).
    destruct (expandFrom rest params []) as [e|rs]; [done|].
    by rewrite <- app_assoc.
Qed.

Lemma expandFrom_app l1 l2 params acc :
  expandFrom (l1 ++ l2) params acc =
  match expandFrom l1 params acc with
  | inl err => inl err
  | inr rs => expandFrom l2 params rs
  end.
Proof.
  revert acc. induction l1 as [|pkg rest IH]; intros acc; simpl; [done|].
  destruct (Parse pkg) as [e|tmpl]; [done|].
  by destruct (Execute tmpl params) as [e|r].
Qed.

Lemma Forall2_elem_of_l {A B} (P : A → B → Prop) l k x :
  Forall2 P l k → x ∈ l → ∃ y, y ∈ k ∧ P x y.
Proof.
  induction 1 as [|a b l k Hab Hlk IH]; [by intros ?%elem_of_nil|].
  intros [->|Hx]%elem_of_cons.
  - exists b. split; [by left|done].
  - destruct (IH Hx) as (y & ? & ?). exists y. split; [by right|done].
Qed.

End ExpansionComposes.

(** X7.  Expansion goes package by package and stops at the first
    failure: expanding [l1 ++ l2] fails with the error of [l1] when [l1]
    fails, whatever [l2] is; otherwise it fails with the error of [l2],
    or returns the expansions of [l1] followed by those of [l2]. *)
Theorem PackageListToTemplate_app `{TemplateEngine} (l1 l2 : list string)
    (params : gmap string string) :
  PackageListToTemplate (l1 ++ l2) params =
  match PackageListToTemplate l1 params with
  | inl err => inl err
  | inr r1 =>
      match PackageListToTemplate l2 params with
      | inl err => inl err
      | inr r2 => inr (r1 ++ r2)
      end
  end.
Proof.
  unfold PackageListToTemplate. rewrite expandFrom_app.
  destruct (expandFrom l1 params []) as [e|r1]; [done|].
  by rewrite expandFrom_acc.
Qed.

Section GoExpansion.

Lemma Parse_plain (pkg : string) :
  plain pkg →
  GoTemplate.Parse pkg = inr (GoTemplate.text (list_ascii_of_string pkg)).
Proof. intros Hpkg. unfold GoTemplate.Parse. by apply scan_plain. Qed.

Lemma Execute_text params (pkg : string) :
  GoTemplate.Execute (GoTemplate.text (list_ascii_of_string pkg)) params =
  inr pkg.
Proof.
  unfold GoTemplate.Execute.
  by rewrite value_text, string_of_list_ascii_of_string.
Qed.

Lemma expand_parsing params (packages : list string) :
  Forall (λ pkg, parses pkg = true) packages →
  ∃ rs, PackageListToTemplate (H := GoTemplate.engine) packages params = inr rs ∧
        Forall2 (expandsTo (H := GoTemplate.engine) params) packages rs.
Proof.
  intros Hall.
  destruct (PackageListToTemplate (H := GoTemplate.engine) packages params)
    as [err|rs] eqn:Hrun.
  - apply (expandFrom_inl (H := GoTemplate.engine)) in Hrun
      as (before & pkg & after & rs & -> & _ & Hstop).
    apply Forall_app in Hall as [_ Hpkg%Forall_inv]. unfold parses in Hpkg.
    destruct Hstop as [Hparse|(tmpl & _ & Hexec)].
    + change (@Parse GoTemplate.engine) with GoTemplate.Parse in Hparse.
      by rewrite Hparse in Hpkg.
    + done.
  - exists rs. split; [done|].
    by apply (expandFrom_inr (H := GoTemplate.engine)) in Hrun
      as (rs' & -> & Hall2).
Qed.

End GoExpansion.

(** X8.  Package names without an opening brace pass through the
    expansion unchanged, whatever the parameters are. *)
Theorem PackageListToTemplate_plain (packages : list string)
    (params : gmap string string) :
  Forall plain packages →
  PackageListToTemplate (H := GoTemplate.engine) packages params = inr packages.
Proof.
  intros Hall. unfold PackageListToTemplate.
  rewrite <- (app_nil_l packages) at 2. generalize (@nil string).
  induction Hall as [|pkg rest Hpkg Hall IH]; intros acc; cbn [expandFrom].
  - by rewrite app_nil_r.
  - change (@Parse GoTemplate.engine pkg) with (GoTemplate.Parse pkg).
    rewrite Parse_plain by done.
    change (@Execute GoTemplate.engine) with GoTemplate.Execute.
    rewrite Execute_text, IH. by rewrite <- app_assoc.
Qed.

Lemma PackageListToTemplate_plain_witness :
  Forall plain ["tpm2*"; "libglib2.0-data"; ""] ∧
  PackageListToTemplate (H := GoTemplate.engine)
    ["tpm2*"; "libglib2.0-data"; ""] {[ "version" := "24.04" ]} =
  inr ["tpm2*"; "libglib2.0-data"; ""].
Proof.
  assert (Hall : Forall plain ["tpm2*"; "libglib2.0-data"; ""]).
  { apply (bool_decide_unpack _). vm_compute. exact I. }
  split; [exact Hall|].
  exact (PackageListToTemplate_plain _ {[ "version" := "24.04" ]} Hall).
Defined.

Section CatalogNames.

Lemma Values_names_parse tb :
  Forall (λ p, parses p = true) Values.CommonPackages ∧
  Forall (λ pm, Forall (λ p, parses p = true) (packagesOf pm))
    (Values_catalogs Values.initial tb).
Proof.
  split; [apply (bool_decide_unpack _); by vm_compute|].
  destruct tb; apply (bool_decide_unpack _); by vm_compute.
Qed.

Lemma DockerfileValues_names_parse tb :
  Forall (λ p, parses p = true) DockerfileValues.CommonPackages ∧
  Forall (λ pm, Forall (λ p, parses p = true) (packagesOf pm))
    (DockerfileValues_catalogs DockerfileValues.initial tb).
Proof.
  split; [apply (bool_decide_unpack _); by vm_compute|].
  destruct tb; apply (bool_decide_unpack _); by vm_compute.
Qed.

Lemma listedFor_packagesOf `{Semver} v pm s p :
  listedFor v pm s p → p ∈ packagesOf pm.
Proof.
  intros (k & a & c & values & _ & _ & Hc & _ & Hp).
  by eapply elem_of_packagesOf.
Qed.

Lemma Values_result_parses `{Semver} tb order s out :
  admissible order →
  Values.GetPackages Values.initial tb order s = Ok out →
  Forall (λ p, parses p = true) out.
Proof.
  intros Hadm Hout. destruct (Values_names_parse tb) as [Hcommon Hcat].
  destruct (NewVersion (sVersion s)) as [v|] eqn:Hv;
    [|unfold Values.GetPackages in Hout; by rewrite Hv in Hout].
  apply Forall_forall. intros p Hp.
  apply (Values_result_iff Values.initial tb order s v out p Hadm Hv Hout)
    in Hp as [Hp|(pm & Hpm & Hlisted%listedFor_packagesOf)].
  - rewrite Forall_forall in Hcommon. by apply Hcommon.
  - rewrite Forall_forall in Hcat. specialize (Hcat pm Hpm).
    rewrite Forall_forall in Hcat. by apply Hcat.
Qed.

Lemma DockerfileValues_result_parses `{Semver} tb order s out :
  admissible order →
  DockerfileValues.GetPackages DockerfileValues.initial tb order s = Ok out →
  Forall (λ p, parses p = true) out.
Proof.
  intros Hadm Hout.
  destruct (DockerfileValues_names_parse tb) as [Hcommon Hcat].
  destruct (NewVersion (sVersion s)) as [v|] eqn:Hv.
  - apply Forall_forall. intros p Hp.
    apply (DockerfileValues_result_iff DockerfileValues.initial tb order s v
             out p Hadm Hv Hout)
      in Hp as [Hp|(pm & Hpm & Hlisted%listedFor_packagesOf)].
    + rewrite Forall_forall in Hcommon. by apply Hcommon.
    + rewrite Forall_forall in Hcat. specialize (Hcat pm Hpm).
      rewrite Forall_forall in Hcat. by apply Hcat.
  - unfold DockerfileValues.GetPackages,
      DockerfileValues.FilterPackagesOnConstraint in Hout.
    rewrite Hv in Hout. cbv zeta in Hout. rewrite app_nil_r in Hout.
    by injection Hout as <-.
Qed.

Lemma expandsTo_hwe params x r :
  params !! "version" = Some x →
  expandsTo (H := GoTemplate.engine) params
    "linux-image-generic-hwe-{{.version}}" r →
  r = "linux-image-generic-hwe-" +:+ x.
Proof.
  intros Hx (tmpl & Hparse & Hexec).
  change (GoTemplate.Parse "linux-image-generic-hwe-{{.version}}" = inr tmpl)
    in Hparse.
  assert (Hp : GoTemplate.Parse "linux-image-generic-hwe-{{.version}}" =
               inr [GoTemplate.TextNode
                      (list_ascii_of_string "linux-image-generic-hwe-");
                    GoTemplate.FieldNode "version"]) by reflexivity.
  rewrite Hp in Hparse. injection Hparse as <-.
  change (GoTemplate.Execute
            [GoTemplate.TextNode
               (list_ascii_of_string "linux-image-generic-hwe-");
             GoTemplate.FieldNode "version"] params = inr r) in Hexec.
  unfold GoTemplate.Execute in Hexec. injection Hexec as <-.
  rewrite Hx. cbn [default]. by rewrite append_empty_r.
Qed.

End CatalogNames.

(** X9.  Every result of the resolver on the catalogs of the sources can
    be expanded: whatever the system, the mode, the order of visit and
    the parameters, [PackageListToTemplate] on the returned list does
    not fail and returns one name per package. *)
Theorem GetPackages_result_expands `{Semver} (TrustedBoot : bool)
    (order : Order) (s : System) (params : gmap string string) :
  admissible order →
  (∀ out, Values.GetPackages Values.initial TrustedBoot order s = Ok out →
     ∃ rs, PackageListToTemplate (H := GoTemplate.engine) out params = inr rs ∧
           Forall2 (expandsTo (H := GoTemplate.engine) params) out rs ∧
           length rs = length out) ∧
  (∀ out, DockerfileValues.GetPackages DockerfileValues.initial TrustedBoot
            order s = Ok out →
     ∃ rs, PackageListToTemplate (H := GoTemplate.engine) out params = inr rs ∧
           Forall2 (expandsTo (H := GoTemplate.engine) params) out rs ∧
           length rs = length out).
Proof.
  intros Hadm. split; intros out Hout.
  - destruct (expand_parsing params out
                (Values_result_parses TrustedBoot order s out Hadm Hout))
      as (rs & Hrun & Hall).
    exists rs. repeat split; [done|done|]. symmetry. by eapply Forall2_length.
  - destruct (expand_parsing params out
                (DockerfileValues_result_parses TrustedBoot order s out
                   Hadm Hout))
      as (rs & Hrun & Hall).
    exists rs. repeat split; [done|done|]. symmetry. by eapply Forall2_length.
Qed.

Lemma GetPackages_result_expands_witness :
  admissible descending ∧
  ∀ out,
    Values.GetPackages (H := GoVersion.semver) Values.initial true descending
      (mkSystem Ubuntu DebianFamily ArchAMD64 "24.04") = Ok out →
    ∃ rs, PackageListToTemplate (H := GoTemplate.engine) out ∅ = inr rs ∧
          Forall2 (expandsTo (H := GoTemplate.engine) ∅) out rs ∧
          length rs = length out.
Proof.
  split; [intros i m; apply reverse_Permutation|].
  refine (proj1 (GetPackages_result_expands (H := GoVersion.semver) true
                   descending (mkSystem Ubuntu DebianFamily ArchAMD64 "24.04")
                   ∅ _)).
  intros i m. apply reverse_Permutation.
Defined.

(** X10.  The templated kernel entry, end to end: for an Ubuntu amd64
    system whose version matches [>=20.04, != 24.10], expanding the
    result of [pkg/values/packagemaps.go] with a [version] parameter
    [x] succeeds and the list has [linux-image-generic-hwe-] followed by
    [x]. *)
Theorem Values_hwe_kernel_expanded (TrustedBoot : bool) (order : Order)
    (family : Family) (version x : string) (v : list Z)
    (params : gmap string string) :
  admissible order →
  NewVersion (Semver := GoVersion.semver) version = Some v →
  matches (H := GoVersion.semver) v ">=20.04, != 24.10" = true →
  params !! "version" = Some x →
  ∃ out rs,
    Values.GetPackages (H := GoVersion.semver) Values.initial TrustedBoot order
      (mkSystem Ubuntu family ArchAMD64 version) = Ok out ∧
    PackageListToTemplate (H := GoTemplate.engine) out params = inr rs ∧
    "linux-image-generic-hwe-" +:+ x ∈ rs.
Proof.
  intros Hadm Hv Hmatch Hx.
  assert (Hout : Values.GetPackages (H := GoVersion.semver) Values.initial
                   TrustedBoot order
                   (mkSystem Ubuntu family ArchAMD64 version) =
                 Ok (rangeAll (H := GoVersion.semver) order 0 v
                       (Values.filteredPackages Values.initial TrustedBoot
                          (mkSystem Ubuntu family ArchAMD64 version))
                       Values.CommonPackages)).
  { unfold Values.GetPackages. cbn [sVersion]. by rewrite Hv. }
  destruct (expand_parsing params _
              (Values_result_parses (H := GoVersion.semver) TrustedBoot order
                 _ _ Hadm Hout))
    as (rs & Hrun & Hall).
  eexists _, rs. split; [exact Hout|]. split; [exact Hrun|].
  assert (Hin : "linux-image-generic-hwe-{{.version}}" ∈
                rangeAll (H := GoVersion.semver) order 0 v
                  (Values.filteredPackages Values.initial TrustedBoot
                     (mkSystem Ubuntu family ArchAMD64 version))
                  Values.CommonPackages).
  { destruct (visited_block (H := GoVersion.semver) order 0 v
                (Values.filteredPackages Values.initial TrustedBoot
                   (mkSystem Ubuntu family ArchAMD64 version))
                Values.CommonPackages ">=20.04, != 24.10"
                ["linux-image-generic-hwe-{{.version}}"])
      as (before & after & ->); [|done|].
    - eapply (elem_of_visited order 0 _
                (index Values.KernelPackages Ubuntu ArchAMD64));
        [done| |reflexivity].
      unfold Values.filteredPackages. destruct TrustedBoot; here_or_further.
    - apply elem_of_app. right. apply elem_of_app. left.
      by apply list_elem_of_here. }
  destruct (Forall2_elem_of_l _ _ _ _ Hall Hin) as (r & Hr & Hexp).
  by rewrite <- (expandsTo_hwe params x r Hx Hexp).
Qed.

Lemma Values_hwe_kernel_expanded_witness :
  admissible descending ∧
  NewVersion (Semver := GoVersion.semver) "22.04" = Some [22; 4; 0]%Z ∧
  matches (H := GoVersion.semver) [22; 4; 0]%Z ">=20.04, != 24.10" = true ∧
  ({[ "version" := "22.04" ]} : gmap string string) !! "version" = Some "22.04" ∧
  ∃ out rs,
    Values.GetPackages (H := GoVersion.semver) Values.initial false descending
      (mkSystem Ubuntu DebianFamily ArchAMD64 "22.04") = Ok out ∧
    PackageListToTemplate (H := GoTemplate.engine) out
      {[ "version" := "22.04" ]} = inr rs ∧
    "linux-image-generic-hwe-" +:+ "22.04" ∈ rs.
Proof.
  split; [intros i m; apply reverse_Permutation|].
  split; [reflexivity|]. split; [reflexivity|]. split; [reflexivity|].
  apply (Values_hwe_kernel_expanded false descending DebianFamily "22.04"
           "22.04" [22; 4; 0]%Z {[ "version" := "22.04" ]}).
  - intros i m. apply reverse_Permutation.
  - reflexivity.
  - reflexivity.
  - reflexivity.
Defined.

(** X11.  In the text in [src/Dockerfile] the trusted-boot kernel
    catalog has no entry for Ubuntu nor for the Debian family, so a
    trusted-boot Ubuntu system gets no kernel package from the resolver,
    whatever its architecture and version. *)
Theorem DockerfileValues_trusted_boot_ubuntu_kernel `{Semver} (order : Order)
    (arch : Architecture) (version : string) (v : SemverVersion) :
  admissible order →
  contribution order v
    (DockerfileValues.filteredPackages DockerfileValues.initial true
       (mkSystem Ubuntu DebianFamily arch version)) 4 4 = [].
Proof.
  intros Hadm. unfold contribution, DockerfileValues.filteredPackages.
  cbn [app take drop sDistro sFamily sArch DockerfileValues.initial
       DockerfileValues.gKernelPackagesTrustedBoot
       DockerfileValues.gBasePackages DockerfileValues.gSystemdPackages].
  apply rangeAll_all_empty; [done|].
  repeat constructor; by apply index_absent.
Qed.

Lemma DockerfileValues_trusted_boot_ubuntu_kernel_witness :
  admissible descending ∧
  contribution (H := GoVersion.semver) descending [24; 4; 0]%Z
    (DockerfileValues.filteredPackages DockerfileValues.initial true
       (mkSystem Ubuntu DebianFamily ArchAMD64 "24.04")) 4 4 = [].
Proof.
  split; [intros i m; apply reverse_Permutation|].
  apply (DockerfileValues_trusted_boot_ubuntu_kernel (H := GoVersion.semver)
           descending ArchAMD64 "24.04" [24; 4; 0]%Z).
  intros i m. apply reverse_Permutation.
Defined.
